(** * hledger-tools: command construction and dataframe helpers

    A shallow embedding of [hledgertools.hlcommand.HledgerCommand] and
    [hledgertools.hldataframe.HLDataFrame], together with the properties
    of the specification that are stated about them.

    Python strings are byte strings in UTF-8 ([string]); [None]-able
    arguments are [option]s; exceptions are the [Err] side of a result
    type. *)

From Stdlib Require Import ZArith Floats Ascii String.
From stdpp Require Import base option list strings pretty gmap.

Local Open Scope string_scope.
Local Open Scope list_scope.

(** ** Python truthiness of the values the code tests with [if x:] *)

Definition str_truthy (s : string) : bool :=
  match s with
  | EmptyString => false
  | String _ _ => true
  end.

(** [if o:] for [o : str | None]. *)
Definition opt_truthy (o : option string) : bool :=
  match o with
  | Some s => str_truthy s
  | None => false
  end.

(** [if l:] for [l : list[str] | None]. *)
Definition list_truthy {A} (o : option (list A)) : bool :=
  match o with
  | Some (_ :: _) => true
  | _ => false
  end.

(** [s[n:]] *)
Fixpoint string_drop (n : nat) (s : string) : string :=
  match n, s with
  | S n', String _ s' => string_drop n' s'
  | _, _ => s
  end.

(** [l.append(x)], as a new list. *)
Definition append {A} (l : list A) (x : A) : list A := l ++ [x].

(** * hlcommand.py *)

Module HledgerCommand.

(** The attributes set by [__init__]. *)
Record t := mk {
  command : string;
  ledgerfile : option string;
  begin_date : option string;
  end_date : option string;
  period : option string;
  periodic : option string;
  output_format : option string;
  other_options : option (list string);
}.

Definition init (ledgerfile begin_date end_date period periodic
                 output_format : option string)
                (other_options : option (list string)) : t :=
  {| command := "hledger";
     ledgerfile := ledgerfile;
     begin_date := begin_date;
     end_date := end_date;
     period := period;
     periodic := periodic;
     output_format := output_format;
     other_options := other_options |}.

(** [if o: full_command.append(f"{prefix}{o}")] *)
Definition append_if (o : option string) (prefix : string)
                     (full_command : list string) : list string :=
  match o with
  | Some s => if str_truthy s then append full_command (prefix +:+ s)
              else full_command
  | None => full_command
  end.

(** [if l: for x in l: full_command.append(f(x))] *)
Definition append_each (l : option (list string)) (f : string → string)
                       (full_command : list string) : list string :=
  if list_truthy l
  then foldl (λ acc x, append acc (f x)) full_command (default [] l)
  else full_command.

(** Lines 55-95 of [run]: the argument list handed to [subprocess.run]. *)
Definition full_command (self : t) (subcommand : string)
    (accounts ignore extra_options : option (list string)) : list string :=
  let full_command := ["hledger"; subcommand] in
  let full_command := append_if (ledgerfile self) "--file=" full_command in
  let full_command := append_if (period self) "--period=" full_command in
  let full_command := append_if (begin_date self) "--begin=" full_command in
  let full_command := append_if (end_date self) "--end=" full_command in
  let full_command := append_if (periodic self) "--" full_command in
  let full_command :=
    append_if (output_format self) "--output-format=" full_command in
  let full_command := append_each (other_options self) id full_command in
  let full_command := append_each extra_options id full_command in
  let full_command := append_each accounts id full_command in
  let full_command := append_each ignore (λ acct, "not:" +:+ acct) full_command in
  full_command.

(** What [subprocess.run(..., stdout=PIPE, stderr=PIPE, text=True)]
    observes of the child once it has exited. *)
Record CompletedProcess := {
  returncode : Z;
  stdout : string;
  stderr : string;
}.

(** [subprocess.CalledProcessError], raised by [check=True]. *)
Record CalledProcessError := {
  cpe_returncode : Z;
  cpe_cmd : list string;
  cpe_output : string;
  cpe_stderr : string;
}.

(** [io.StringIO]: a text buffer with a read position. *)
Record StringIO := { getvalue : string; tell : nat }.

Definition StringIO_new (initial_value : string) : StringIO :=
  {| getvalue := initial_value; tell := 0 |}.

Definition seek (pos : nat) (io : StringIO) : StringIO :=
  {| getvalue := getvalue io; tell := pos |}.

(** [io.read()]: the text from the position to the end. *)
Definition read (io : StringIO) : string * StringIO :=
  (string_drop (tell io) (getvalue io),
   {| getvalue := getvalue io;
      tell := Nat.max (tell io) (String.length (getvalue io)) |}).

(** The value [run] returns. *)
Inductive output :=
| Text (s : string)
| Stream (io : StringIO).

(** The processes spawned so far, oldest first. *)
Definition world := list (list string).

Section Run.
(** The behaviour of the external [hledger] executable on an argument
    list. *)
Variable hledger : list string → CompletedProcess.

(** [subprocess.run(args, ..., check=True)]: one child process. *)
Definition subprocess_run (args : list string) (w : world)
    : (CalledProcessError + CompletedProcess) * world :=
  let p := hledger args in
  (if (returncode p =? 0)%Z then inr p
   else inl {| cpe_returncode := returncode p;
               cpe_cmd := args;
               cpe_output := stdout p;
               cpe_stderr := stderr p |},
   append w args).

Definition run (self : t) (subcommand : string)
    (accounts ignore extra_options : option (list string)) (w : world)
    : (CalledProcessError + output) * world :=
  let full_command :=
    full_command self subcommand accounts ignore extra_options in
  match subprocess_run full_command w with
  | (inl e, w') => (inl e, w')
  | (inr result, w') =>
      if opt_truthy (output_format self)
      then (inr (Stream (StringIO_new (stdout result))), w')
      else (inr (Text (stdout result)), w')
  end.
End Run.

(** ** Reference values for the properties below *)

(** The argument a configured option contributes. *)
Definition flag (prefix : string) (o : option string) : list string :=
  match o with
  | Some (String c s) => [prefix +:+ String c s]
  | _ => []
  end.

(** An [hledger] that fails on a missing journal and prints a balance
    otherwise. *)
Definition hledger_stub (args : list string) : CompletedProcess :=
  if bool_decide ("--file=missing.journal" ∈ args)
  then {| returncode := 1; stdout := "";
          stderr := "hledger: missing.journal: openFile: does not exist" |}
  else {| returncode := 0; stdout := "account,balance"; stderr := "" |}.

End HledgerCommand.


(** * The dataframe library underneath hldataframe.py

    [HLDataFrame] subclasses [polars.DataFrame] and every method of it
    delegates to Polars.  The module [pl] models the Polars operations the
    methods call, with the library's defaults: the frame as an ordered list
    of named, typed columns with nulls; the expressions [pl.col(..).str...];
    and the exceptions they raise. *)

Module pl.

(** [polars.exceptions], the Python [TypeError], and [NotModelled] for an
    input outside the fragment of the library modelled here (see
    [regex.compile], [read_csv], [transpose], [cast]). *)
Inductive Error :=
| ColumnNotFoundError (name : string)
| DuplicateError (name : string)
| ShapeError
| NoDataError
| SchemaError
| InvalidOperationError
| TypeError
| NotModelled.

Inductive Result (A : Type) :=
| Ok (a : A)
| Err (e : Error).
Arguments Ok {A} a.
Arguments Err {A} e.

#[export] Instance Result_ret : MRet Result := λ A a, Ok a.
#[export] Instance Result_bind : MBind Result := λ A B f r,
  match r with
  | Ok a => f a
  | Err e => Err e
  end.

#[export] Instance Result_fmap : FMap Result := λ A B f r,
  match r with
  | Ok a => Ok (f a)
  | Err e => Err e
  end.

(** ** Strings *)

(** [s.split(sep)] for a one-byte separator. *)
Fixpoint split_on (sep : ascii) (s : string) : list string :=
  match s with
  | EmptyString => [EmptyString]
  | String c s' =>
      if Ascii.eqb c sep then EmptyString :: split_on sep s'
      else match split_on sep s' with
           | x :: xs => String c x :: xs
           | [] => [String c EmptyString]
           end
  end.

Definition contains_byte (c : ascii) (s : string) : bool :=
  existsb (Ascii.eqb c) (list_ascii_of_string s).

(** ** Regular expressions

    [str.contains] and [str.replace] take their pattern as a regular
    expression of Rust's [regex] crate.  The fragment modelled is the
    patterns without any of the metacharacters [\ . + * ? ( ) [ ] { } ^ $]:
    alternations [a|b|c] of literal strings.  A match is searched
    leftmost-first: at the first position where some alternative matches,
    the first such alternative in pattern order. *)

Module regex.

Definition metacharacters : string := "\.+*?()[]{}^$".

Definition is_meta (c : ascii) : bool := contains_byte c metacharacters.

Record t := { alternatives : list string }.

Definition compile (pattern : string) : Result t :=
  if existsb is_meta (list_ascii_of_string pattern) then Err NotModelled
  else Ok {| alternatives := split_on "|" pattern |}.

(** The length of the match starting exactly at the head of [s]. *)
Definition match_here (r : t) (s : string) : option nat :=
  String.length <$> List.find (λ a, String.prefix a s) (alternatives r).

(** [Regex::is_match]: a match anywhere in [s]. *)
Fixpoint is_match (r : t) (s : string) : bool :=
  match match_here r s with
  | Some _ => true
  | None =>
      match s with
      | EmptyString => false
      | String _ s' => is_match r s'
      end
  end.

(** [Regex::replacen(s, 1, value)] for a [value] without group
    references: the leftmost match is replaced, the rest is kept. *)
Fixpoint replace_first (r : t) (value : string) (s : string) : string :=
  match match_here r s with
  | Some n => value +:+ string_drop n s
  | None =>
      match s with
      | EmptyString => EmptyString
      | String c s' => String c (replace_first r value s')
      end
  end.

End regex.

(** ** Parsing a string as a 64-bit float

    The strict cast from [String] to [Float64] accepts an optional sign
    followed by a decimal number (digits with an optional fraction and an
    optional exponent; a digit is required before or after the point) or
    by [inf], [infinity] or [nan] in any letter case; the whole string
    must be consumed.  The value is the double nearest to the decimal
    (ties to even). *)

Definition digit_val (c : ascii) : option Z :=
  let n := Z.of_N (N_of_ascii c) in
  if ((48 <=? n) && (n <=? 57))%Z then Some (n - 48)%Z else None.

(** The longest run of digits at the head of [s]: the number read (on top
    of [acc]), how many digits it has, and the rest of the string. *)
Fixpoint digits (acc : Z) (n : nat) (s : string) : Z * nat * string :=
  match s with
  | String c s' =>
      match digit_val c with
      | Some d => digits (acc * 10 + d) (S n) s'
      | None => (acc, n, s)
      end
  | EmptyString => (acc, n, s)
  end.

Definition sign (s : string) : bool * string :=
  match s with
  | String "-" s' => (true, s')
  | String "+" s' => (false, s')
  | _ => (false, s)
  end.

Definition lower (c : ascii) : ascii :=
  let n := N_of_ascii c in
  if ((65 <=? n) && (n <=? 90))%N then ascii_of_N (n + 32) else c.

Definition lowercase (s : string) : string :=
  string_of_list_ascii (map lower (list_ascii_of_string s)).

(** [[eE][+-]?[0-9]+] at the end of the string, or nothing. *)
Definition exponent (s : string) : option Z :=
  match s with
  | EmptyString => Some 0%Z
  | String c s' =>
      if Ascii.eqb (lower c) "e" then
        let '(neg, s'') := sign s' in
        match digits 0 0 s'' with
        | (e, S _, EmptyString) => Some (if neg : bool then - e else e)%Z
        | _ => None
        end
      else None
  end.

(** The decimal [(-1)^neg * m * 10^e] a numeric string denotes. *)
Definition decimal (s : string) : option (Z * Z) :=
  let '(m, n1, s) := digits 0 0 s in
  let '(m, n2, s) :=
    match s with
    | String "." s' => digits m 0 s'
    | _ => (m, 0, s)
    end in
  match n1 + n2 with
  | 0 => None
  | S _ => e ← exponent s; Some (m, (e - Z.of_nat n2)%Z)
  end.

(** The double nearest to [(-1)^neg * m * 10^e]. *)
Definition round_decimal (neg : bool) (m e : Z) : spec_float :=
  match m with
  | Z.pos p =>
      if (0 <=? e)%Z
      then SpecFloat.binary_round prec emax neg (p * Z.to_pos (10 ^ e)) 0
      else
        let '(q, e', l) :=
          SpecFloat.SFdiv_core_binary prec emax (Z.pos p) 0 (10 ^ (- e)) 0 in
        SpecFloat.binary_round_aux prec emax neg q e' l
  | _ => S754_zero neg
  end.

Definition str_to_f64 (s : string) : option float :=
  let '(neg, s) := sign s in
  let l := lowercase s in
  if String.eqb l "inf" || String.eqb l "infinity"
  then Some (SF2Prim (S754_infinity neg))
  else if String.eqb l "nan" then Some (SF2Prim S754_nan)
  else '(m, e) ← decimal s; Some (SF2Prim (round_decimal neg m e)).

(** ** Series and frames *)

Inductive DataType := Utf8 | Float64 | Datetime | Boolean.

(** A column: its values in row order, [None] for null.  A [Datetime]
    value is a count of microseconds since the epoch. *)
Inductive Series :=
| SUtf8 (values : list (option string))
| SFloat64 (values : list (option float))
| SDatetime (values : list (option Z))
| SBoolean (values : list (option bool)).

Definition dtype (s : Series) : DataType :=
  match s with
  | SUtf8 _ => Utf8
  | SFloat64 _ => Float64
  | SDatetime _ => Datetime
  | SBoolean _ => Boolean
  end.

Definition len (s : Series) : nat :=
  match s with
  | SUtf8 v => length v
  | SFloat64 v => length v
  | SDatetime v => length v
  | SBoolean v => length v
  end.

(** A frame: its columns in order. *)
Abbreviation DataFrame := (list (string * Series)).

Definition columns (df : DataFrame) : list string := df.*1.

Definition width (df : DataFrame) : nat := length df.

Definition height (df : DataFrame) : nat :=
  match df with
  | [] => 0
  | (_, s) :: _ => len s
  end.

(** What Polars maintains of every frame: distinct column names and
    columns of one length. *)
Definition wf (df : DataFrame) : Prop :=
  NoDup (columns df) ∧ Forall (λ c, len c.2 = height df) df.

#[export] Instance wf_dec (df : DataFrame) : Decision (wf df).
Proof. unfold wf. apply _. Defined.

(** [df[name]] *)
Fixpoint get_column (name : string) (df : DataFrame) : Result Series :=
  match df with
  | [] => Err (ColumnNotFoundError name)
  | (n, s) :: df' => if String.eqb n name then Ok s else get_column name df'
  end.

(** The first name of a list that occurs again later in it. *)
Fixpoint first_duplicate (names : list string) : option string :=
  match names with
  | [] => None
  | n :: names' =>
      if bool_decide (n ∈ names') then Some n else first_duplicate names'
  end.

(** [df.rename({existing: new})] *)
Definition rename (existing new : string) (df : DataFrame) : Result DataFrame :=
  if bool_decide (existing ∈ columns df) then
    if bool_decide (new ∈ columns df) && negb (String.eqb existing new)
    then Err (DuplicateError new)
    else Ok (map (λ c, (if String.eqb c.1 existing then new else c.1, c.2)) df)
  else Err (ColumnNotFoundError existing).

(** [df.drop(name)] *)
Definition drop (name : string) (df : DataFrame) : Result DataFrame :=
  if bool_decide (name ∈ columns df)
  then Ok (List.filter (λ c, negb (String.eqb c.1 name)) df)
  else Err (ColumnNotFoundError name).

(** *** Transposition

    [df.transpose(include_header=..)] with the defaults
    [header_name="column"] and [column_names=None]: row [i] of the frame
    becomes the column [column_<i>]; with [include_header] a first column
    [column] holds the former column names.  A frame without rows or
    without columns cannot be transposed.  The new columns have the
    supertype of the old ones; the conversion of the values to a proper
    supertype is not modelled, so the columns must have one type. *)

Definition utf8_values (s : Series) : option (list (option string)) :=
  match s with SUtf8 v => Some v | _ => None end.
Definition f64_values (s : Series) : option (list (option float)) :=
  match s with SFloat64 v => Some v | _ => None end.
Definition datetime_values (s : Series) : option (list (option Z)) :=
  match s with SDatetime v => Some v | _ => None end.
Definition bool_values (s : Series) : option (list (option bool)) :=
  match s with SBoolean v => Some v | _ => None end.

(** Row [i] of the matrix whose columns are [cols]. *)
Definition row {A} (cols : list (list (option A))) (i : nat) : list (option A) :=
  map (λ c, nth i c None) cols.

Definition rows {A} (h : nat) (cols : list (list (option A)))
    : list (list (option A)) :=
  map (row cols) (seq 0 h).

Definition column_name (i : nat) : string := "column_" +:+ pretty i.

Definition transposed {A} (include_header : bool) (df : DataFrame)
    (mk : list (option A) → Series) (cols : list (list (option A)))
    : DataFrame :=
  let body :=
    imap (λ i r, (column_name i, mk r)) (rows (height df) cols) in
  if include_header
  then ("column", SUtf8 (Some <$> columns df)) :: body
  else body.

Definition transpose (include_header : bool) (df : DataFrame)
    : Result DataFrame :=
  if Nat.eqb (height df) 0 || Nat.eqb (width df) 0 then Err NoDataError
  else match mapM utf8_values df.*2 with
  | Some cols => Ok (transposed include_header df SUtf8 cols)
  | None =>
  match mapM f64_values df.*2 with
  | Some cols => Ok (transposed include_header df SFloat64 cols)
  | None =>
  match mapM datetime_values df.*2 with
  | Some cols => Ok (transposed include_header df SDatetime cols)
  | None =>
  match mapM bool_values df.*2 with
  | Some cols => Ok (transposed include_header df SBoolean cols)
  | None => Err NotModelled
  end end end end.

(** *** Python values *)

Inductive PyValue :=
| PyNone
| PyStr (s : string)
| PyFloat (f : float)
| PyDatetime (us : Z)
| PyBool (b : bool).

Definition py {A} (inj : A → PyValue) (v : option A) : PyValue :=
  match v with
  | Some x => inj x
  | None => PyNone
  end.

(** [series.to_list()] *)
Definition to_list (s : Series) : list PyValue :=
  match s with
  | SUtf8 v => map (py PyStr) v
  | SFloat64 v => map (py PyFloat) v
  | SDatetime v => map (py PyDatetime) v
  | SBoolean v => map (py PyBool) v
  end.

Definition as_str (v : PyValue) : option string :=
  match v with
  | PyStr s => Some s
  | _ => None
  end.

(** [df.columns = names]: the names must be strings, as many as the frame
    has columns, and distinct. *)
Definition set_columns (names : list PyValue) (df : DataFrame)
    : Result DataFrame :=
  match mapM as_str names with
  | None => Err TypeError
  | Some names =>
      if negb (Nat.eqb (length names) (width df)) then Err ShapeError
      else match first_duplicate names with
           | Some n => Err (DuplicateError n)
           | None => Ok (zip names df.*2)
           end
  end.

(** ** Expressions

    The expressions of hldataframe.py are chains of element-wise
    operations on one column, [pl.col(name).f(..).g(..)]: the column they
    start from, whose name the result keeps, and what they compute from
    its values. *)

Record Expr := {
  root : string;
  apply : Series → Result Series;
}.

(** [pl.col(name)] *)
Definition col (name : string) : Expr :=
  {| root := name; apply := Ok |}.

Definition and_then (e : Expr) (f : Series → Result Series) : Expr :=
  {| root := root e; apply := λ s, apply e s ≫= f |}.

(** Evaluation in a frame. *)
Definition eval (df : DataFrame) (e : Expr) : Result Series :=
  get_column (root e) df ≫= apply e.

(** A conversion that fails as a whole when it fails on one value
    ([strict=True]); nulls stay null. *)
Definition strict_map {A B} (f : A → option B) (v : list (option A))
    : Result (list (option B)) :=
  match mapM (λ x, match x with
                   | Some a => Some <$> f a
                   | None => Some None
                   end) v with
  | Some w => Ok w
  | None => Err InvalidOperationError
  end.

(** [e.str.contains(pattern)]: null on a null value. *)
Definition str_contains (pattern : string) (e : Expr) : Expr :=
  and_then e (λ s,
    match s return Result Series with
    | SUtf8 v =>
        r ← regex.compile pattern;
        Ok (SBoolean (fmap (M:=option) (regex.is_match r) <$> v))
    | _ => Err SchemaError
    end).

(** [e.str.replace(pattern, value)], with the default [n=1]: the first
    match only. *)
Definition str_replace (pattern value : string) (e : Expr) : Expr :=
  and_then e (λ s,
    match s return Result Series with
    | SUtf8 v =>
        r ← regex.compile pattern;
        if contains_byte "$" value then Err NotModelled
        else Ok (SUtf8 (fmap (M:=option) (regex.replace_first r value) <$> v))
    | _ => Err SchemaError
    end).

(** [e.cast(dt)], strict.  Modelled: parsing strings as floats, and the
    cast to the type the column has. *)
Definition cast (dt : DataType) (e : Expr) : Expr :=
  and_then e (λ s,
    match dt, s return Result Series with
    | Float64, SUtf8 v => SFloat64 <$> strict_map str_to_f64 v
    | Float64, SFloat64 _ | Utf8, SUtf8 _ | Datetime, SDatetime _
    | Boolean, SBoolean _ => Ok s
    | _, _ => Err NotModelled
    end).

(** [e.str.to_datetime(format)], strict; [strptime format s] is the
    library's parser of one value. *)
Definition str_to_datetime (strptime : string → string → option Z)
    (format : string) (e : Expr) : Expr :=
  and_then e (λ s,
    match s return Result Series with
    | SUtf8 v => SDatetime <$> strict_map (strptime format) v
    | _ => Err SchemaError
    end).

(** [~e]: null stays null. *)
Definition invert (e : Expr) : Expr :=
  and_then e (λ s,
    match s return Result Series with
    | SBoolean v => Ok (SBoolean (fmap (M:=option) negb <$> v))
    | _ => Err NotModelled
    end).

(** The values of the rows where the mask is true; a row whose mask is
    false or null is dropped. *)
Fixpoint keep {A} (mask : list (option bool)) (v : list A) : list A :=
  match mask, v with
  | m :: mask', x :: v' =>
      match m with
      | Some true => x :: keep mask' v'
      | _ => keep mask' v'
      end
  | _, _ => []
  end.

Definition keep_rows (mask : list (option bool)) (s : Series) : Series :=
  match s with
  | SUtf8 v => SUtf8 (keep mask v)
  | SFloat64 v => SFloat64 (keep mask v)
  | SDatetime v => SDatetime (keep mask v)
  | SBoolean v => SBoolean (keep mask v)
  end.

(** [df.filter(predicate)] *)
Definition filter (predicate : Expr) (df : DataFrame) : Result DataFrame :=
  s ← eval df predicate;
  match s with
  | SBoolean mask => Ok (prod_map id (keep_rows mask) <$> df)
  | _ => Err SchemaError
  end.

(** The frame with column [name] set to [s]: in place if the frame has
    the column, as a new last column otherwise. *)
Fixpoint set_column (name : string) (s : Series) (df : DataFrame) : DataFrame :=
  match df with
  | [] => [(name, s)]
  | (n, s') :: df' =>
      if String.eqb n name then (n, s) :: df'
      else (n, s') :: set_column name s df'
  end.

(** The frame with every column of [updates] set, one after the other. *)
Definition set_all (df : DataFrame) (updates : list (string * Series))
    : DataFrame :=
  foldl (λ acc '(name, s), set_column name s acc) df updates.

(** [df.with_columns(exprs)]: the columns named by the expressions are
    looked up first, then every expression is evaluated on the frame as
    it was, and the results replace the columns of their names. *)
Definition with_columns (exprs : list Expr) (df : DataFrame)
    : Result DataFrame :=
  inputs ← mapM (λ e, get_column (root e) df) exprs;
  outputs ← mapM (λ '(e, s), apply e s) (zip exprs inputs);
  match first_duplicate (root <$> exprs) with
  | Some n => Err (DuplicateError n)
  | None =>
      Ok (set_all df (zip (root <$> exprs) outputs))
  end.

(** ** Reading CSV

    [pl.read_csv(source, infer_schema=False)] with the other defaults:
    comma-separated, a header line, every column read as [String], an
    empty field read as null.  Modelled are the texts without quoted
    fields and carriage returns, with distinct non-empty column names and
    as many fields on every line as the header has. *)

Definition lines (text : string) : list string :=
  match reverse (split_on "010" text) with
  | EmptyString :: l => reverse l
  | _ => split_on "010" text
  end.

Definition fields (line : string) : list string := split_on "," line.

Definition cell (field : string) : option string :=
  match field with
  | EmptyString => None
  | _ => Some field
  end.

Definition read_csv (source : string) (infer_schema : bool)
    : Result DataFrame :=
  if infer_schema then Err NotModelled
  else if contains_byte "034" source || contains_byte "013" source
  then Err NotModelled
  else match lines source with
  | [] => Err NoDataError
  | header :: body =>
      let names := fields header in
      if bool_decide (EmptyString ∈ names) then Err NotModelled
      else if bool_decide (first_duplicate names ≠ None) then Err NotModelled
      else if existsb (λ l, negb (Nat.eqb (length (fields l)) (length names))) body
      then Err NotModelled
      else Ok (imap (λ j name,
                 (name, SUtf8 ((λ l, cell (nth j (fields l) EmptyString))
                               <$> body)))
               names)
  end.

(** ** Rows by index *)

(** The values at the given indices, in that order. *)
Definition gather {A} (idx : list nat) (v : list A) : list A :=
  omap (λ i, v !! i) idx.

Definition gather_rows (idx : list nat) (s : Series) : Series :=
  match s with
  | SUtf8 v => SUtf8 (gather idx v)
  | SFloat64 v => SFloat64 (gather idx v)
  | SDatetime v => SDatetime (gather idx v)
  | SBoolean v => SBoolean (gather idx v)
  end.

(** [df[idx]]: the rows of the frame at the given indices. *)
Definition take_rows (idx : list nat) (df : DataFrame) : DataFrame :=
  prod_map id (gather_rows idx) <$> df.

(** The indices, counted from [i], at which a mask is true. *)
Fixpoint true_from (i : nat) (mask : list bool) : list nat :=
  match mask with
  | [] => []
  | b :: mask' =>
      if b then i :: true_from (S i) mask' else true_from (S i) mask'
  end.

End pl.

(** * hldataframe.py

    An [HLDataFrame] is a Polars frame; the class adds methods and no
    data, and the overrides of [_from_pydf], [rename], [filter],
    [with_columns] and [select] only re-wrap the result of the parent's
    method in the subclass. *)

Module HLDataFrame.
Import pl.

Abbreviation t := DataFrame.

(** [HLDataFrame.from_csv(csv_text, infer_schema)]; [csv_text] stands
    for the CSV text that [pl.read_csv] reads from its source, and no
    further keyword argument is passed. *)
Definition from_csv (csv_text : string) (infer_schema : bool) : Result t :=
  read_csv csv_text infer_schema.

(** The argument [patterns : list[str] | str]. *)
Inductive patterns :=
| One (pattern : string)
| Many (patterns : list string).

(** [if isinstance(patterns, str): patterns = [patterns]] *)
Definition as_list (patterns : patterns) : list string :=
  match patterns with
  | One s => [s]
  | Many l => l
  end.

Definition filter_accounts (patterns : patterns) (account_col : string)
    (exclude : bool) (self : t) : Result t :=
  let patterns := as_list patterns in
  let pattern := String.concat "|" patterns in
  let condition := str_contains pattern (col account_col) in
  let condition := if exclude then invert condition else condition in
  filter condition self.

Definition col_to_datetime (strptime : string → string → option Z)
    (datecol_name date_format : string) (self : t) : Result t :=
  with_columns [str_to_datetime strptime date_format (col datecol_name)] self.

(** Lines 190-197: the identifier column, or [None] for the fallback to
    the parent's transposition. *)
Definition detect_id_col (id_col : option string) (self : t) : option string :=
  match id_col with
  | Some c => Some c
  | None =>
      if bool_decide ("account" ∈ columns self)
         || bool_decide ("Account" ∈ columns self)
      then Some "account"
      else if bool_decide ("date" ∈ columns self) then Some "date"
      else None
  end.

(** Line 206: the name of the first column of the result. *)
Definition new_id_col (id_col : string) : string :=
  if String.eqb id_col "account" then "date" else "account".

(** [df.drop(id_col)] is not overridden and returns a plain Polars frame,
    so the transposition at line 209 is the parent's. *)
Definition transpose (id_col : option string)
    (include_header auto_name : bool) (self : t) : Result t :=
  if negb auto_name then pl.transpose include_header self
  else
    match detect_id_col id_col self with
    | None => pl.transpose include_header self
    | Some id_col =>
        df ← (if bool_decide ("Account" ∈ columns self)
              then rename "Account" "account" self
              else Ok self);
        ids ← get_column id_col df;
        let id_values := to_list ids in
        let new_id_col := new_id_col id_col in
        dropped ← drop id_col df;
        df_transposed ← pl.transpose include_header dropped;
        set_columns (PyStr new_id_col :: id_values) df_transposed
    end.

Definition currency_to_number (currency_symbol : string)
    (preserve_cols change_cols : option (gset string)) (self : t)
    : Result t :=
  let change_cols :=
    match change_cols with
    | None => list_to_set (columns self)
    | Some c => c
    end in
  let preserve_cols := default ∅ preserve_cols in
  with_columns
    ((λ c, cast Float64 (str_replace currency_symbol "" (col c)))
       <$> List.filter (λ c, bool_decide (c ∉ preserve_cols))
                       (elements change_cols))
    self.

(** The defaults of the keyword arguments. *)
Definition default_account_col : string := "account".
Definition default_date_format : string := "%Y-%m".
Definition default_datecol_name : string := "date".
Definition default_currency_symbol : string := "£".

(** ** The results the specification describes *)

(** The table with a column [Account] renamed to [account]. *)
Definition normalise (df : t) : t :=
  (λ c, (if String.eqb c.1 "Account" then "account" else c.1, c.2)) <$> df.

(** The values of the string columns of a table, column by column. *)
Definition utf8_cells (df : t) : list (list (option string)) :=
  omap utf8_values df.*2.

(** The table pivoted on the identifier column [id] whose values are
    [ids]: the identifier column is dropped, the names of the remaining
    columns become the values of the first column, named after the
    opposite role, and row [i] of the remaining columns becomes the column
    headed by the [i]-th identifier value. *)
Definition pivot (id : string) (ids : list string) (df : t) : t :=
  let rest := List.filter (λ c, negb (String.eqb c.1 id)) df in
  (new_id_col id, SUtf8 (Some <$> columns rest))
    :: zip ids (SUtf8 <$> rows (height df) (utf8_cells rest)).

(** What the expression of line 253 computes from a column. *)
Definition convert (currency_symbol : string) (s : Series) : Result Series :=
  apply (cast Float64 (str_replace currency_symbol "" (col ""))) s.

(** The columns [currency_to_number] converts, in the order of the
    comprehension. *)
Definition targets (preserve_cols change_cols : option (gset string))
    (df : DataFrame) : list string :=
  List.filter (λ c, bool_decide (c ∉ default ∅ preserve_cols))
    (elements (default (list_to_set (columns df)) change_cols)).

End HLDataFrame.


(** * Example inputs *)

Module Examples.
Import pl.

(** The text whose lines are [l], each ended by a newline. *)
Definition unlines (l : list string) : string :=
  String.concat "" ((λ s, s +:+ String "010" EmptyString) <$> l).

(** The CSV text of the specification's end-to-end scenario. *)
Definition balance_csv : string :=
  unlines ["account,2024-01,2024-02"; "expenses:food,£100,£150"].

Definition balance : DataFrame :=
  [("account", SUtf8 [Some "expenses:food"]);
   ("2024-01", SUtf8 [Some "£100"]);
   ("2024-02", SUtf8 [Some "£150"])].

(** A report whose second line has no account name. *)
Definition unnamed_csv : string :=
  unlines ["account,amount"; "assets,£5"; ",£7"].

Definition unnamed : DataFrame :=
  [("account", SUtf8 [Some "assets"; None]);
   ("amount", SUtf8 [Some "£5"; Some "£7"])].

(** A report with the capitalised header some commands print. *)
Definition capitalised : DataFrame :=
  [("Account", SUtf8 [Some "expenses:food"]);
   ("2024-01", SUtf8 [Some "£100"])].

(** A table with both spellings of the account column. *)
Definition both_spellings_csv : string :=
  unlines ["Account,account,2024-01"; "Expenses,expenses:food,£100"].

Definition both_spellings : DataFrame :=
  [("Account", SUtf8 [Some "Expenses"]);
   ("account", SUtf8 [Some "expenses:food"]);
   ("2024-01", SUtf8 [Some "£100"])].

(** The scenario's table after the transposition. *)
Definition balance_by_date : DataFrame :=
  [("date", SUtf8 [Some "2024-01"; Some "2024-02"]);
   ("expenses:food", SUtf8 [Some "£100"; Some "£150"])].

(** Two report lines for one account. *)
Definition repeated_csv : string :=
  unlines ["account,2024-01"; "assets,£1"; "assets,£2"].

Definition repeated : DataFrame :=
  [("account", SUtf8 [Some "assets"; Some "assets"]);
   ("2024-01", SUtf8 [Some "£1"; Some "£2"])].

(** A header line without report lines. *)
Definition header_only_csv : string := unlines ["account,2024-01"].

Definition header_only : DataFrame :=
  [("account", SUtf8 []); ("2024-01", SUtf8 [])].

(** Days from 1970-01-01 to a date of the proleptic Gregorian calendar. *)
Definition days_from_civil (y m d : Z) : Z :=
  let y' := if (m <=? 2)%Z then (y - 1)%Z else y in
  let era := (y' / 400)%Z in
  let yoe := (y' - era * 400)%Z in
  let mp := if (2 <? m)%Z then (m - 3)%Z else (m + 9)%Z in
  let doy := ((153 * mp + 2) / 5 + d - 1)%Z in
  let doe := (yoe * 365 + yoe / 4 - yoe / 100 + doy)%Z in
  (era * 146097 + doe - 719468)%Z.

(** A parser for the format [%Y-%m] on strings [YYYY-MM]: midnight of the
    first day of the month. *)
Definition strptime_ym (format s : string) : option Z :=
  if negb (String.eqb format "%Y-%m") then None
  else match digits 0 0 s with
  | (y, 4, String "-" s') =>
      match digits 0 0 s' with
      | (m, 2, EmptyString) =>
          if ((1 <=? m) && (m <=? 12))%Z
          then Some (days_from_civil y m 1 * 86400 * 1000000)%Z
          else None
      | _ => None
      end
  | _ => None
  end.

(** The transposed scenario table with one month misspelt. *)
Definition misdated : DataFrame :=
  [("date", SUtf8 [Some "2024-01"; Some "Feb 2024"]);
   ("expenses:food", SUtf8 [Some "£100"; Some "£150"])].

(** The table of the specification's currency example. *)
Definition amounts : DataFrame :=
  [("date", SUtf8 [Some "2024-01"]);
   ("amount", SUtf8 [Some "£100.50"])].


End Examples.

(** * Definitions for the further properties *)

Module More.
Import pl HLDataFrame.

(** Two values of an optional string argument that [if x:] does not tell
    apart: the same value, or two falsy ones ([None], the empty string). *)
Definition same_option (o o' : option string) : Prop :=
  o = o' ∨ (opt_truthy o = false ∧ opt_truthy o' = false).

(** The configuration [self] with its global extra options replaced. *)
Definition with_other_options (self : HledgerCommand.t)
    (other_options : option (list string)) : HledgerCommand.t :=
  HledgerCommand.mk (HledgerCommand.command self)
    (HledgerCommand.ledgerfile self) (HledgerCommand.begin_date self)
    (HledgerCommand.end_date self) (HledgerCommand.period self)
    (HledgerCommand.periodic self) (HledgerCommand.output_format self)
    other_options.

(** An [hledger] that prints a CSV balance report. *)
Definition hledger_csv (args : list string) : HledgerCommand.CompletedProcess :=
  {| HledgerCommand.returncode := 0;
     HledgerCommand.stdout := Examples.balance_csv;
     HledgerCommand.stderr := "" |}.

(** Whether [filter_accounts] keeps a row, by the value of its account:
    a null account is never kept. *)
Definition selected (r : regex.t) (exclude : bool) (account : option string)
    : bool :=
  match account with
  | Some a => if exclude then negb (regex.is_match r a) else regex.is_match r a
  | None => false
  end.

End More.

(** * Facts about the library model *)

Module plFacts.
Import pl.

Lemma bind_Ok {A B} (r : Result A) (f : A → Result B) b :
  r ≫= f = Ok b ↔ ∃ a, r = Ok a ∧ f a = Ok b.
Proof.
  destruct r as [a|e]; simpl; split.
  - intros H. by exists a.
  - by intros (a' & [= <-] & H).
  - discriminate.
  - by intros (a' & [=] & _).
Qed.

Lemma mapM_Ok {A B} (f : A → Result B) l k :
  mapM f l = Ok k ↔ Forall2 (λ x y, f x = Ok y) l k.
Proof.
  revert k. induction l as [|x l IH]; intros k; simpl.
  - split; [intros [= <-]; constructor | by inversion 1].
  - split.
    + intros H. apply bind_Ok in H as (y & Hy & H).
      apply bind_Ok in H as (k' & Hk' & [= <-]).
      constructor; [done | by apply IH].
    + inversion 1 as [|? y ? k' Hy Hk]; subst.
      apply IH in Hk. by rewrite Hy, Hk.
Qed.

Lemma strict_map_Ok {A B} (f : A → option B) v w :
  strict_map f v = Ok w ↔
  Forall2 (λ x y, match x with
                  | Some a => ∃ b, f a = Some b ∧ y = Some b
                  | None => y = None
                  end) v w.
Proof.
  unfold strict_map.
  set (g := λ x : option A,
         match x with Some a => Some <$> f a | None => Some None end).
  assert (mapM g v = Some w ↔
          Forall2 (λ x y, match x with
                          | Some a => ∃ b, f a = Some b ∧ y = Some b
                          | None => y = None
                          end) v w) as <-.
  { rewrite mapM_Some.
    split; intros H; (eapply Forall2_impl; [exact H|]);
      intros [a|] y; unfold g.
    - destruct (f a) as [b|]; simpl; [|discriminate]. intros [= <-]. eauto.
    - by intros [= <-].
    - by intros (b & -> & ->).
    - by intros ->. }
  destruct (mapM g v) as [w'|]; split; congruence.
Qed.

Lemma strict_map_Err {A B} (f : A → option B) v :
  (∃ a, Some a ∈ v ∧ f a = None) →
  strict_map f v = Err InvalidOperationError.
Proof.
  intros (a & Hin & Ha). unfold strict_map.
  destruct (mapM _ v) as [w|] eqn:Hm; [|done].
  apply mapM_Some in Hm.
  apply list_elem_of_lookup in Hin as [i Hi].
  destruct (Forall2_lookup_l _ _ _ _ _ Hm Hi) as (y & _ & Hy).
  simpl in Hy. rewrite Ha in Hy. discriminate.
Qed.

Lemma strict_map_total {A B} (f : A → option B) v :
  (∀ a, Some a ∈ v → is_Some (f a)) →
  strict_map f v = Ok ((λ x, x ≫= f) <$> v).
Proof.
  intros Hall. apply strict_map_Ok.
  apply Forall2_fmap_r, Forall_Forall2_diag, Forall_forall.
  intros [a|] Hin; simpl; [|done].
  destruct (Hall a Hin) as [b Hb]. eauto.
Qed.

(** *** Columns of a frame *)

Lemma get_column_Ok name df s :
  get_column name df = Ok s → (name, s) ∈ df.
Proof.
  induction df as [|[n s'] df IH]; simpl; [discriminate|].
  destruct (String.eqb_spec n name) as [->|Hne].
  - intros [= <-]. left.
  - intros H. right. by apply IH.
Qed.

Lemma get_column_columns name df :
  name ∈ columns df ↔ ∃ s, get_column name df = Ok s.
Proof.
  unfold columns. induction df as [|[n s'] df IH]; simpl.
  - split; [by intros ?%elem_of_nil | by intros [? [=]]].
  - destruct (String.eqb_spec n name) as [->|Hne].
    + split; [eauto | intros _; left].
    + rewrite elem_of_cons, IH.
      split; [intros [->|H]; [done | exact H] | by right].
Qed.

Lemma get_column_not_found name df :
  name ∉ columns df → get_column name df = Err (ColumnNotFoundError name).
Proof.
  unfold columns. induction df as [|[n s'] df IH]; simpl; [done|].
  rewrite not_elem_of_cons. intros [Hne Hnin].
  destruct (String.eqb_spec n name) as [->|_]; [done | by apply IH].
Qed.

Lemma get_column_len name df s :
  wf df → get_column name df = Ok s → len s = height df.
Proof.
  intros [_ Hlen] Hget. apply get_column_Ok in Hget.
  rewrite Forall_forall in Hlen. by apply (Hlen (name, s)).
Qed.

Lemma set_column_columns name s df :
  name ∈ columns df → columns (set_column name s df) = columns df.
Proof.
  unfold columns. induction df as [|[n s'] df IH]; simpl.
  - by intros ?%elem_of_nil.
  - destruct (String.eqb_spec n name) as [->|Hne]; [done|].
    rewrite elem_of_cons. intros [->|Hin]; [done|].
    simpl. f_equal. by apply IH.
Qed.

Lemma get_set_column name s df :
  get_column name (set_column name s df) = Ok s.
Proof.
  induction df as [|[n s'] df IH]; simpl.
  - by rewrite String.eqb_refl.
  - destruct (String.eqb_spec n name) as [->|Hne]; simpl.
    + by rewrite String.eqb_refl.
    + by destruct (String.eqb_spec n name).
Qed.

Lemma get_set_column_ne name other s df :
  other ≠ name →
  get_column other (set_column name s df) = get_column other df.
Proof.
  intros Hne. induction df as [|[n s'] df IH]; simpl.
  - by destruct (String.eqb_spec name other) as [->|_].
  - destruct (String.eqb_spec n name) as [->|Hn]; simpl.
    + by destruct (String.eqb_spec name other) as [->|_].
    + by rewrite IH.
Qed.

Lemma set_column_len name s df h :
  Forall (λ c, len c.2 = h) df → len s = h →
  Forall (λ c, len c.2 = h) (set_column name s df).
Proof.
  intros Hlen Hs. induction Hlen as [|[n s'] df H1 H2 IH]; simpl.
  - by repeat constructor.
  - destruct (String.eqb_spec n name) as [->|_]; by constructor.
Qed.

Lemma set_column_height name s df :
  name ∈ columns df → len s = height df →
  height (set_column name s df) = height df.
Proof.
  destruct df as [|[n s'] df]; simpl; [by intros ?%elem_of_nil|].
  by destruct (String.eqb_spec n name).
Qed.

Lemma set_column_wf name s df :
  wf df → name ∈ columns df → len s = height df →
  wf (set_column name s df).
Proof.
  intros [Hnd Hlen] Hin Hs. split; [by rewrite set_column_columns|].
  rewrite set_column_height by done. by apply set_column_len.
Qed.

(** *** with_columns *)

Lemma set_all_columns (updates : list (string * Series)) : ∀ df : DataFrame,
  Forall (λ u, u.1 ∈ columns df) updates →
  columns (set_all df updates) = columns df.
Proof.
  induction updates as [|[n s] updates IH]; intros df Hall; simpl; [done|].
  inversion Hall as [|?? Hn Hrest]; subst. simpl in Hn.
  rewrite IH; [by apply set_column_columns|].
  eapply Forall_impl; [exact Hrest|]. intros [??] ?; simpl.
  by rewrite set_column_columns.
Qed.

Lemma set_all_other (updates : list (string * Series)) name :
  ∀ df : DataFrame,
  name ∉ updates.*1 →
  get_column name (set_all df updates) = get_column name df.
Proof.
  induction updates as [|[n s] updates IH]; intros df Hnin; simpl; [done|].
  simpl in Hnin. rewrite not_elem_of_cons in Hnin. destruct Hnin as [Hne Hnin].
  rewrite IH by done. by apply get_set_column_ne.
Qed.

Lemma set_all_get (updates : list (string * Series)) name s :
  ∀ df : DataFrame,
  NoDup updates.*1 → (name, s) ∈ updates →
  get_column name (set_all df updates) = Ok s.
Proof.
  induction updates as [|[n s'] updates IH]; intros df Hnd Hin; simpl.
  - by apply elem_of_nil in Hin.
  - simpl in Hnd. apply NoDup_cons in Hnd as [Hn Hnd].
    apply elem_of_cons in Hin as [[= <- <-]|Hin].
    + rewrite set_all_other by done. apply get_set_column.
    + by apply IH.
Qed.

Lemma first_duplicate_NoDup names :
  first_duplicate names = None ↔ NoDup names.
Proof.
  induction names as [|n names IH]; simpl.
  - split; [constructor | done].
  - rewrite NoDup_cons. case_bool_decide as Hin.
    + split; [discriminate | by intros [? _]].
    + rewrite IH. tauto.
Qed.

(** A successful [with_columns] computed every expression on its column
    of the frame and stored the results under distinct names. *)
Lemma with_columns_Ok exprs (df df' : DataFrame) :
  with_columns exprs df = Ok df' ↔
  ∃ inputs outputs,
    Forall2 (λ e s, get_column (root e) df = Ok s) exprs inputs
    ∧ Forall2 (λ es o, apply es.1 es.2 = Ok o) (zip exprs inputs) outputs
    ∧ NoDup (root <$> exprs)
    ∧ df' = set_all df (zip (root <$> exprs) outputs).
Proof.
  unfold with_columns. split.
  - intros H. apply bind_Ok in H as (inputs & Hin & H).
    apply bind_Ok in H as (outputs & Hout & H).
    destruct (first_duplicate _) eqn:Hdup; [discriminate|].
    injection H as <-. exists inputs, outputs.
    apply mapM_Ok in Hin. apply mapM_Ok in Hout.
    repeat split; [done| |by apply first_duplicate_NoDup].
    eapply Forall2_impl; [exact Hout|]. by intros [??] ?.
  - intros (inputs & outputs & Hin & Hout & Hnd & ->).
    apply mapM_Ok in Hin. rewrite Hin. cbn [mbind Result_bind].
    assert (mapM (λ '(e, s), apply e s) (zip exprs inputs) = Ok outputs)
      as ->.
    { apply mapM_Ok. eapply Forall2_impl; [exact Hout|]. by intros [??] ?. }
    cbn [mbind Result_bind].
    apply first_duplicate_NoDup in Hnd. by rewrite Hnd.
Qed.

(** *** Row selection *)

Lemma gather_true_from {A} (mask : list bool) (v pre : list A) :
  length mask = length v →
  keep (Some <$> mask) v
  = gather (true_from (length pre) mask) (pre ++ v).
Proof.
  revert v pre. induction mask as [|b mask IH]; intros [|x v] pre; simpl;
    try done.
  intros [= Hlen].
  specialize (IH v (pre ++ [x]) Hlen).
  rewrite length_app, Nat.add_1_r, <- app_assoc in IH. simpl in IH.
  destruct b; simpl; [|done].
  unfold gather at 1. simpl.
  rewrite lookup_app_r, Nat.sub_diag by done. simpl.
  by f_equal.
Qed.

Lemma keep_gather {A} (mask : list bool) (v : list A) :
  length mask = length v →
  keep (Some <$> mask) v = gather (true_from 0 mask) v.
Proof. intros H. by apply (gather_true_from mask v []). Qed.


Lemma keep_all {A} (v : list A) (mask : list (option bool)) :
  length mask = length v → Forall (λ m, m = Some true) mask →
  keep mask v = v.
Proof.
  intros Hlen Hall. revert v Hlen.
  induction Hall as [|m mask -> _ IH]; intros [|x v]; simpl; try done.
  intros [= Hlen]. by rewrite IH.
Qed.

Lemma keep_none {A} (v : list A) (mask : list (option bool)) :
  Forall (λ m, m = Some false) mask → keep mask v = [].
Proof.
  intros Hall. revert v.
  induction Hall as [|m mask -> _ IH]; intros [|x v]; simpl; done.
Qed.

Lemma keep_rows_take mask s :
  length mask = len s →
  keep_rows (Some <$> mask) s = gather_rows (true_from 0 mask) s.
Proof. destruct s; simpl; intros H; f_equal; by apply keep_gather. Qed.

Lemma filter_mask_take (mask : list bool) df :
  wf df → length mask = height df →
  prod_map id (keep_rows (Some <$> mask)) <$> df
  = take_rows (true_from 0 mask) df.
Proof.
  intros [_ Hlen] Hm. unfold take_rows.
  apply Forall_fmap_ext_1, Forall_forall.
  rewrite Forall_forall in Hlen.
  intros [n s] Hin. unfold prod_map; simpl. f_equal.
  apply keep_rows_take. rewrite Hm. symmetry. by apply (Hlen (n, s)).
Qed.

End plFacts.
(** * Properties of hlcommand.py *)

Module HledgerCommandSpec.
Import HledgerCommand.

Lemma append_if_flag o prefix l : append_if o prefix l = l ++ flag prefix o.
Proof.
  destruct o as [[|c s]|]; simpl; unfold append;
    rewrite ?app_nil_r; reflexivity.
Qed.

Lemma foldl_append (f : string → string) xs : ∀ l,
  foldl (λ acc x, append acc (f x)) l xs = l ++ map f xs.
Proof.
  induction xs as [|x xs IH]; intros l; simpl.
  - by rewrite app_nil_r.
  - rewrite IH. unfold append. by rewrite <- app_assoc.
Qed.

Lemma append_each_map o f l :
  append_each o f l = l ++ map f (default [] o).
Proof.
  unfold append_each. destruct o as [[|x xs]|]; simpl;
    rewrite ?app_nil_r; try reflexivity.
  rewrite foldl_append. unfold append. by rewrite <- app_assoc.
Qed.

Example full_command_all_options :
  full_command
    (init (Some "2024.journal") (Some "2024-01-01") (Some "2024-07-01")
          (Some "2024") (Some "monthly") (Some "csv") (Some ["--depth=2"]))
    "balance" (Some ["assets"; "income"]) (Some ["equity"]) (Some ["-N"])
  = ["hledger"; "balance"; "--file=2024.journal"; "--period=2024";
     "--begin=2024-01-01"; "--end=2024-07-01"; "--monthly";
     "--output-format=csv"; "--depth=2"; "-N"; "assets"; "income";
     "not:equity"].
Proof. reflexivity. Qed.

(** An option set to the empty string is not passed on. *)
Example full_command_empty_option :
  full_command (init (Some "") None None None (Some "") None (Some []))
               "print" (Some []) None None
  = ["hledger"; "print"].
Proof. reflexivity. Qed.

(** C1. For every choice of constructor options and call parameters the
    argument list is: the executable, the subcommand, then [--file=],
    [--period=], [--begin=], [--end=], the bare [--<periodic>] flag and
    [--output-format=] (each present exactly when its option is a
    non-empty string), then the global extra options, the per-call
    extra options, the accounts, and the ignored accounts prefixed with
    [not:], each list in its own order; and the call of the
    specification's example yields the list given there. *)
Theorem full_command_order :
  (∀ lf bd ed pe pc fmt oo subcommand accounts ignore extra_options,
     full_command (init lf bd ed pe pc fmt oo) subcommand
                  accounts ignore extra_options
     = ["hledger"; subcommand]
         ++ flag "--file=" lf
         ++ flag "--period=" pe
         ++ flag "--begin=" bd
         ++ flag "--end=" ed
         ++ flag "--" pc
         ++ flag "--output-format=" fmt
         ++ default [] oo
         ++ default [] extra_options
         ++ default [] accounts
         ++ map (String.append "not:") (default [] ignore))
  ∧ full_command (init (Some "ledger.journal") None None None None None None)
                 "balance" (Some ["assets"]) (Some ["equity"]) None
    = ["hledger"; "balance"; "--file=ledger.journal"; "assets"; "not:equity"].
Proof.
  split; [|reflexivity].
  intros. unfold full_command, init; cbn [ledgerfile begin_date end_date
    period periodic output_format other_options].
  rewrite !append_each_map, !append_if_flag, !map_id.
  rewrite <- !app_assoc. reflexivity.
Qed.

(** C4. [run] spawns exactly one process, on the argument list it built.
    If that process exits with a non-zero status the call fails with an
    error carrying the exit status and the captured standard error, and
    returns nothing; if it exits with status zero the call returns the
    captured standard output, as a stream positioned at its start over
    that text when an output format is configured and as the text itself
    otherwise. *)
Theorem run_exit_status (hledger : list string → CompletedProcess)
    self subcommand accounts ignore extra_options w :
  let args := full_command self subcommand accounts ignore extra_options in
  let p := hledger args in
  let r := run hledger self subcommand accounts ignore extra_options w in
  r.2 = w ++ [args]
  ∧ (returncode p ≠ 0%Z →
       ∃ e, r.1 = inl e ∧ cpe_returncode e = returncode p
            ∧ cpe_stderr e = stderr p)
  ∧ (returncode p = 0%Z →
       ∃ o, r.1 = inr o
            ∧ (opt_truthy (output_format self) = true →
                 ∃ io, o = Stream io ∧ getvalue io = stdout p
                       ∧ (read io).1 = stdout p
                       ∧ (read (seek 0 (read io).2)).1 = stdout p)
            ∧ (opt_truthy (output_format self) = false →
                 o = Text (stdout p))).
Proof.
  intros args p r. subst r. unfold run, subprocess_run. fold args. fold p.
  destruct (Z.eqb_spec (returncode p) 0) as [Hz|Hnz]; cbn [fst snd].
  - destruct (opt_truthy (output_format self)) eqn:Hfmt; cbn [fst snd].
    + split; [reflexivity|]. split; [intros Hne; by destruct Hne|].
      intros _. eexists. split; [reflexivity|].
      split; [|intros; discriminate].
      intros _. eexists. split; [reflexivity|]. by repeat split.
    + split; [reflexivity|]. split; [intros Hne; by destruct Hne|].
      intros _. eexists. split; [reflexivity|].
      split; [intros; discriminate|]. by intros _.
  - split; [reflexivity|]. split; [|intros; contradiction].
    intros _. eexists. by repeat split.
Qed.

Lemma run_exit_status_witness :
  (∃ e, (run hledger_stub
           (init (Some "missing.journal") None None None None None None)
           "balance" None None None []).1 = inl e
        ∧ cpe_returncode e = 1%Z
        ∧ cpe_stderr e = "hledger: missing.journal: openFile: does not exist")
  ∧ (∃ o, (run hledger_stub
             (init None None None None None (Some "csv") None)
             "balance" None None None []).1 = inr o
          ∧ ∃ io, o = Stream io ∧ getvalue io = "account,balance").
Proof.
  split.
  - destruct (run_exit_status hledger_stub
                (init (Some "missing.journal") None None None None None None)
                "balance" None None None []) as (_ & Hfail & _).
    apply Hfail. vm_compute. discriminate.
  - destruct (run_exit_status hledger_stub
                (init None None None None None (Some "csv") None)
                "balance" None None None []) as (_ & _ & Hok).
    destruct Hok as (o & Ho & Hstream & _); [reflexivity|].
    exists o. split; [exact Ho|].
    destruct Hstream as (io & Hio & Hval & _); [reflexivity|].
    exists io. split; [exact Hio|exact Hval].
Defined.

End HledgerCommandSpec.

(** * Properties of hldataframe.py *)

Module HLDataFrameSpec.
Import pl plFacts HLDataFrame Examples.

(** ** filter_accounts *)

Lemma filter_accounts_mask patterns account_col exclude (df : DataFrame)
    (v : list (option string)) r :
  get_column account_col df = Ok (SUtf8 v) →
  regex.compile (String.concat "|" (as_list patterns)) = Ok r →
  filter_accounts patterns account_col exclude df
  = Ok (prod_map id
          (keep_rows
             (fmap (M:=option) (λ b, if exclude then negb b else b)
                <$> (fmap (M:=option) (regex.is_match r) <$> v)))
          <$> df).
Proof.
  intros Hcol Hre. unfold filter_accounts, filter, eval.
  destruct exclude; simpl; rewrite Hcol; simpl; rewrite Hre; simpl.
  - reflexivity.
  - assert (∀ m : list (option bool),
              fmap (M:=option) (λ b : bool, b) <$> m = m) as Hid.
    { intros m. rewrite <- (list_fmap_id m) at 2.
      apply list_fmap_ext. by intros _ [?|] _. }
    by rewrite Hid.
Qed.

(** The regular expression of an empty pattern matches every string. *)
Lemma empty_pattern_matches :
  ∃ r, regex.compile "" = Ok r ∧ ∀ s, regex.is_match r s = true.
Proof.
  eexists. split; [reflexivity|]. intros s. by destruct s.
Qed.

(** C10. With an empty list of patterns the joined pattern is the empty
    string, whose regular expression matches every string.  So on a table
    whose account column is a string column without nulls, the call with
    [exclude=False] returns the table unchanged and the call with
    [exclude=True] returns the table without any row. *)
Theorem filter_accounts_no_patterns account_col (df : DataFrame)
    (accounts : list string) :
  wf df →
  get_column account_col df = Ok (SUtf8 (Some <$> accounts)) →
  String.concat "|" (as_list (Many [])) = ""
  ∧ (∃ r, regex.compile "" = Ok r ∧ ∀ s, regex.is_match r s = true)
  ∧ filter_accounts (Many []) account_col false df = Ok df
  ∧ filter_accounts (Many []) account_col true df = Ok (take_rows [] df)
  ∧ columns (take_rows [] df) = columns df
  ∧ Forall (λ c, len c.2 = 0) (take_rows [] df).
Proof.
  intros Hwf Hcol. split; [reflexivity|].
  destruct empty_pattern_matches as (r & Hr & Hall).
  split; [by eauto|].
  pose proof (get_column_len _ _ _ Hwf Hcol) as Hlen. simpl in Hlen.
  rewrite length_fmap in Hlen.
  rewrite !(filter_accounts_mask (Many []) _ _ _ _ r Hcol Hr).
  repeat split.
  - f_equal. rewrite <- (list_fmap_id df) at 2.
    apply Forall_fmap_ext_1, Forall_forall. intros [n s] Hin.
    unfold prod_map; simpl. f_equal.
    destruct Hwf as [_ Hwf]. rewrite Forall_forall in Hwf.
    specialize (Hwf _ Hin). simpl in Hwf.
    assert (∀ A (w : list A), length w = height df →
              keep (fmap (M:=option) (λ b : bool, b)
                      <$> (fmap (M:=option) (regex.is_match r) <$> (Some <$> accounts))) w
              = w) as Hkeep.
    { intros A w Hw. apply keep_all.
      - rewrite !length_fmap. congruence.
      - rewrite <- !list_fmap_compose. apply Forall_fmap, Forall_forall.
        intros a _. simpl. by rewrite Hall. }
    destruct s; simpl in *; f_equal; by apply Hkeep.
  - f_equal. apply Forall_fmap_ext_1, Forall_forall. intros [n s] _.
    unfold prod_map; simpl. f_equal.
    assert (∀ A (w : list A),
              keep (fmap (M:=option) negb
                      <$> (fmap (M:=option) (regex.is_match r) <$> (Some <$> accounts))) w
              = gather [] w) as Hkeep.
    { intros A w. apply keep_none.
      rewrite <- !list_fmap_compose. apply Forall_fmap, Forall_forall.
      intros a _. simpl. by rewrite Hall. }
    destruct s; simpl; f_equal; apply Hkeep.
  - unfold take_rows, columns. rewrite <- list_fmap_compose.
    by apply list_fmap_ext.
  - unfold take_rows. apply Forall_fmap, Forall_forall.
    intros [n s] _. by destruct s.
Qed.

Lemma filter_accounts_no_patterns_witness :
  filter_accounts (Many []) "account" false balance = Ok balance
  ∧ filter_accounts (Many []) "account" true balance
    = Ok [("account", SUtf8 []); ("2024-01", SUtf8 []); ("2024-02", SUtf8 [])].
Proof.
  destruct (filter_accounts_no_patterns "account" balance ["expenses:food"])
    as (_ & _ & Hkeep & Hdrop & _).
  - by apply (bool_decide_unpack _).
  - reflexivity.
  - split; [exact Hkeep | exact Hdrop].
Defined.





(** ** transpose *)

Lemma normalise_id (df : DataFrame) :
  "Account" ∉ columns df → normalise df = df.
Proof.
  unfold normalise, columns. induction df as [|[n s] df IH]; simpl; [done|].
  rewrite not_elem_of_cons. intros [Hne Hnin].
  f_equal; [|by apply IH].
  by destruct (String.eqb_spec n "Account") as [->|_].
Qed.

Lemma normalise_columns (df : DataFrame) name :
  name ∈ columns (normalise df) ↔
  (name = "account" ∧ "Account" ∈ columns df)
  ∨ (name ≠ "Account" ∧ name ∈ columns df).
Proof.
  unfold normalise, columns. rewrite <- list_fmap_compose.
  rewrite !list_elem_of_fmap. split.
  - intros ([n s] & -> & Hin). simpl.
    destruct (String.eqb_spec n "Account") as [->|Hne].
    + left. split; [done|]. by exists ("Account", s).
    + right. split; [done|]. by exists (n, s).
  - intros [[-> ([n s] & Hn & Hin)] | [Hne ([n s] & Hn & Hin)]];
      simpl in Hn; subst; eexists (_, s); (split; [|exact Hin]); simpl.
    + done.
    + by destruct (String.eqb_spec n "Account").
Qed.

Lemma rename_Account (df : DataFrame) :
  "Account" ∈ columns df →
  rename "Account" "account" df
  = if bool_decide ("account" ∈ columns df)
    then Err (DuplicateError "account") else Ok (normalise df).
Proof.
  intros Hin. unfold rename. rewrite bool_decide_eq_true_2 by done.
  by case_bool_decide.
Qed.

Lemma normalise_wf (df : DataFrame) :
  wf df → ¬ ("Account" ∈ columns df ∧ "account" ∈ columns df) →
  wf (normalise df) ∧ height (normalise df) = height df.
Proof.
  intros [Hnd Hlen] Hboth.
  assert (height (normalise df) = height df) as Hh
    by (by destruct df as [|[??] ?]).
  split; [|done]. split.
  - unfold normalise, columns in *. rewrite <- list_fmap_compose.
    clear Hlen Hh. induction df as [|[n s] df IH]; simpl in *; [constructor|].
    apply NoDup_cons in Hnd as [Hnin Hnd].
    apply NoDup_cons. split.
    + rewrite list_elem_of_fmap. intros ([n' s'] & Hn & Hin'). simpl in Hn.
      assert (n' ∈ df.*1) as Hn' by (apply list_elem_of_fmap; by exists (n', s')).
      destruct (String.eqb_spec n "Account") as [->|Hne],
               (String.eqb_spec n' "Account") as [->|Hne']; subst.
      * done.
      * apply Hboth. split; [left | by right].
      * apply Hboth. split; [by right | left].
      * done.
    + apply IH; [done|]. intros [H1 H2]. apply Hboth. split; by right.
  - rewrite Hh. unfold normalise. apply Forall_fmap.
    eapply Forall_impl; [exact Hlen|]. by intros [??].
Qed.

Lemma normalise_utf8 (df : DataFrame) :
  Forall (λ c, dtype c.2 = Utf8) df →
  Forall (λ c, dtype c.2 = Utf8) (normalise df).
Proof.
  intros H. unfold normalise. apply Forall_fmap.
  eapply Forall_impl; [exact H|]. by intros [??].
Qed.

Lemma mapM_utf8_values (df : DataFrame) :
  Forall (λ c, dtype c.2 = Utf8) df →
  mapM utf8_values df.*2 = Some (utf8_cells df).
Proof.
  unfold utf8_cells. induction 1 as [|[n s] df Hs _ IH]; [done|].
  change (mapM utf8_values ((n, s) :: df).*2)
    with (y ← utf8_values s; k ← mapM utf8_values df.*2; mret (y :: k)).
  rewrite IH. by destruct s.
Qed.

Lemma mapM_as_str (ids : list string) :
  mapM as_str (to_list (SUtf8 (Some <$> ids))) = Some ids.
Proof.
  unfold to_list. induction ids as [|i ids IH]; [done|].
  change (mapM as_str (map (py PyStr) (Some <$> i :: ids)))
    with (y ← Some i; k ← mapM as_str (map (py PyStr) (Some <$> ids));
          mret (y :: k)).
  by rewrite IH.
Qed.

Lemma imap_snd {A B C} (g : nat → A) (f : B → C) (l : list B) :
  (imap (λ i r, (g i, f r)) l).*2 = f <$> l.
Proof.
  revert g. induction l as [|x l IH]; intros g; simpl; [done|].
  f_equal. apply (IH (g ∘ S)).
Qed.

(** What is left after dropping one column of a table with several. *)
Lemma rest_height (df : DataFrame) id :
  wf df → 1 < width df →
  let rest := List.filter (λ c, negb (String.eqb c.1 id)) df in
  rest ≠ [] ∧ height rest = height df.
Proof.
  intros [Hnd Hlen] Hw rest.
  assert (Forall (λ c, len c.2 = height df) rest) as Hrest.
  { rewrite Forall_forall in Hlen |- *. intros c Hc. apply Hlen.
    apply list_elem_of_In, filter_In in Hc as [Hc _].
    by apply list_elem_of_In. }
  assert (rest ≠ []) as Hne.
  { subst rest. destruct df as [|[n1 s1] [|[n2 s2] df]]; simpl in Hw; try lia.
    unfold columns in Hnd. simpl in Hnd.
    apply NoDup_cons in Hnd as [Hn1 _]. rewrite not_elem_of_cons in Hn1.
    simpl. destruct (String.eqb_spec n1 id) as [->|_]; simpl; [|done].
    destruct (String.eqb_spec n2 id) as [->|_]; simpl; [|done].
    by destruct Hn1. }
  split; [done|].
  destruct rest as [|[n s] rest']; [done|].
  by inversion Hrest.
Qed.

Lemma transpose_core id (ids : list string) (df : DataFrame) :
  wf df → Forall (λ c, dtype c.2 = Utf8) df →
  get_column id df = Ok (SUtf8 (Some <$> ids)) →
  0 < height df → 1 < width df →
  NoDup (new_id_col id :: ids) →
  (col ← get_column id df;
   dropped ← drop id df;
   df_transposed ← pl.transpose true dropped;
   set_columns (PyStr (new_id_col id) :: to_list col) df_transposed)
  = Ok (pivot id ids df).
Proof.
  intros Hwf Hutf Hget Hh Hw Hnd.
  pose proof (get_column_len _ _ _ Hwf Hget) as Hlen. simpl in Hlen.
  rewrite length_fmap in Hlen.
  rewrite Hget. cbn [mbind Result_bind].
  unfold drop. rewrite bool_decide_eq_true_2
    by (apply get_column_columns; eauto).
  cbn [mbind Result_bind].
  destruct (rest_height df id Hwf Hw) as [Hne Hrest].
  set (rest := List.filter (λ c, negb (String.eqb c.1 id)) df) in *.
  assert (Forall (λ c, dtype c.2 = Utf8) rest) as Hutf'.
  { rewrite Forall_forall in Hutf |- *. intros c Hc. apply Hutf.
    apply list_elem_of_In, filter_In in Hc as [Hc _].
    by apply list_elem_of_In. }
  unfold pl.transpose.
  replace (Nat.eqb (height rest) 0) with false
    by (symmetry; apply Nat.eqb_neq; lia).
  replace (Nat.eqb (width rest) 0) with false
    by (symmetry; apply Nat.eqb_neq; destruct rest; simpl; [done | lia]).
  cbn [orb]. rewrite (mapM_utf8_values rest Hutf').
  cbn [mbind Result_bind]. unfold set_columns.
  cbn [mapM mbind option_bind as_str].
  rewrite mapM_as_str. cbn [mbind option_bind mret option_ret].
  unfold transposed, width. cbn [length].
  rewrite length_imap. unfold rows at 1. rewrite length_map, length_seq.
  replace (Nat.eqb (S (length ids)) (S (height rest))) with true
    by (symmetry; apply Nat.eqb_eq; lia).
  cbn [negb].
  apply first_duplicate_NoDup in Hnd. rewrite Hnd.
  unfold pivot. fold rest. cbn [fmap list_fmap snd zip zip_with].
  rewrite imap_snd, Hrest. reflexivity.
Qed.

Lemma pivot_columns id (ids : list string) (df : DataFrame) :
  length ids = height df →
  columns (pivot id ids df) = new_id_col id :: ids.
Proof.
  intros Hlen. unfold pivot, columns. cbn [fmap list_fmap fst]. f_equal.
  apply fst_zip. rewrite length_fmap. unfold rows.
  rewrite length_map, length_seq. lia.
Qed.

(** Column [i + 1] of the pivoted table is headed by the [i]-th identifier
    value and holds row [i] of the remaining columns. *)
Lemma pivot_lookup id (ids : list string) (df : DataFrame) i name :
  ids !! i = Some name → i < height df →
  pivot id ids df !! S i
  = Some (name,
          SUtf8 (row (utf8_cells
                        (List.filter (λ c, negb (String.eqb c.1 id)) df)) i)).
Proof.
  intros Hi Hh. unfold pivot. cbn [lookup list_lookup].
  apply lookup_zip_with_Some. eexists _, _. split; [done|].
  split; [exact Hi|].
  rewrite list_lookup_fmap. unfold rows.
  rewrite list_lookup_fmap, lookup_seq_lt by done. done.
Qed.

(** C2 (as amended). On a well-formed table of string columns that has at
    least one row and a column besides the identifier, that does not have
    both an [Account] and an [account] column, and whose identifier
    values are non-null, distinct and different from the name of the new
    first column, [transpose] with [auto_name] and [include_header] set
    and an identifier column found in the table after [Account] has been
    renamed to [account] returns the table pivoted on the identifier: the
    first column is named [date] if the identifier is [account] and
    [account] otherwise, and the other columns are headed by the
    identifier values in row order.  The table read from the scenario's
    CSV text becomes the table with header [date, expenses:food] and rows
    [(2024-01, £100)] and [(2024-02, £150)].  Without an [id_col] the
    identifier is [account] if the table has a column [account] or
    [Account], else [date] if it has a column [date], and else the call is
    the parent's transposition. *)
Theorem transpose_pivots :
  (∀ id_col id (ids : list string) (df : DataFrame),
     wf df → Forall (λ c, dtype c.2 = Utf8) df →
     ¬ ("Account" ∈ columns df ∧ "account" ∈ columns df) →
     detect_id_col id_col df = Some id →
     get_column id (normalise df) = Ok (SUtf8 (Some <$> ids)) →
     0 < height df → 1 < width df →
     NoDup (new_id_col id :: ids) →
     transpose id_col true true df = Ok (pivot id ids (normalise df))
     ∧ columns (pivot id ids (normalise df)) = new_id_col id :: ids)
  ∧ (from_csv balance_csv false ≫= transpose None true true)
    = Ok [("date", SUtf8 [Some "2024-01"; Some "2024-02"]);
          ("expenses:food", SUtf8 [Some "£100"; Some "£150"])]
  ∧ (∀ (df : DataFrame) include_header,
       ("account" ∈ columns df ∨ "Account" ∈ columns df →
          detect_id_col None df = Some "account")
       ∧ ("account" ∉ columns df → "Account" ∉ columns df →
          "date" ∈ columns df → detect_id_col None df = Some "date")
       ∧ ("account" ∉ columns df → "Account" ∉ columns df →
          "date" ∉ columns df →
          transpose None include_header true df
          = pl.transpose include_header df))
  ∧ new_id_col "account" = "date"
  ∧ (∀ id, id ≠ "account" → new_id_col id = "account").
Proof.
  split; [|split; [reflexivity|split]]; cycle 2.
  { split; [reflexivity|]. intros id Hid. unfold new_id_col.
    by destruct (String.eqb_spec id "account"). }
  - intros id_col id ids df Hwf Hutf Hboth Hid Hget Hh Hw Hnd.
    destruct (normalise_wf df Hwf Hboth) as [Hwf' Hh'].
    pose proof (get_column_len _ _ _ Hwf' Hget) as Hlen. simpl in Hlen.
    rewrite length_fmap in Hlen.
    split; [|by apply pivot_columns].
    unfold transpose. cbn [negb]. rewrite Hid.
    assert ((if bool_decide ("Account" ∈ columns df)
             then rename "Account" "account" df else Ok df)
            = Ok (normalise df)) as ->.
    { case_bool_decide as HA.
      - rewrite rename_Account by done.
        rewrite bool_decide_eq_false_2; [done|]. intros Ha. by apply Hboth.
      - by rewrite normalise_id. }
    cbn [mbind Result_bind].
    apply transpose_core; try done.
    + by apply normalise_utf8.
    + lia.
    + unfold width, normalise. by rewrite length_fmap.
  - intros df include_header. unfold transpose, detect_id_col. cbn [negb].
    split; [|split].
    + intros [H|H].
      * by rewrite (bool_decide_eq_true_2 _ H).
      * rewrite (bool_decide_eq_true_2 ("Account" ∈ columns df) H).
        by rewrite orb_true_r.
    + intros H1 H2 H3.
      by rewrite (bool_decide_eq_false_2 _ H1), (bool_decide_eq_false_2 _ H2),
                 (bool_decide_eq_true_2 _ H3).
    + intros H1 H2 H3.
      by rewrite (bool_decide_eq_false_2 _ H1), (bool_decide_eq_false_2 _ H2),
                 (bool_decide_eq_false_2 _ H3).
Qed.

Lemma transpose_pivots_witness :
  transpose None true true balance = Ok balance_by_date
  ∧ columns balance_by_date = ["date"; "expenses:food"].
Proof.
  destruct transpose_pivots as (Hpivot & _).
  apply (Hpivot None "account" ["expenses:food"] balance).
  - by apply (bool_decide_unpack _).
  - by repeat constructor.
  - intros [H _]. revert H. by apply (bool_decide_eq_false_1 _).
  - reflexivity.
  - reflexivity.
  - simpl. lia.
  - simpl. lia.
  - by apply (bool_decide_unpack _).
Defined.

(** C2 (as stated) fails on a table in which an identifier value
    repeats: the table is read from CSV text, all its columns are
    strings, the identifier column [account] is found, and the call
    raises for the duplicated header instead of returning a table with
    the headers [date, assets, assets]. *)
Lemma transpose_repeated_identifier :
  from_csv repeated_csv false = Ok repeated
  ∧ Forall (λ c, dtype c.2 = Utf8) repeated
  ∧ detect_id_col None repeated = Some "account"
  ∧ get_column "account" repeated = Ok (SUtf8 [Some "assets"; Some "assets"])
  ∧ transpose None true true repeated = Err (DuplicateError "assets")
  ∧ ∀ df', transpose None true true repeated ≠ Ok df'.
Proof.
  split; [vm_compute; reflexivity|].
  split; [by repeat constructor|].
  split; [reflexivity|]. split; [reflexivity|].
  split; [reflexivity | discriminate].
Qed.

(** The other inputs on which the call raises instead of pivoting: an
    identifier value is null, the table has no row, [include_header] is
    unset, or the identifier column is given by its name [Account]. *)
Lemma transpose_raises :
  transpose None true true unnamed = Err TypeError
  ∧ (from_csv header_only_csv false ≫= transpose None true true)
    = Err NoDataError
  ∧ transpose None false true balance = Err ShapeError
  ∧ transpose (Some "Account") true true capitalised
    = Err (ColumnNotFoundError "Account").
Proof. by repeat split. Qed.

(** C9 (as amended). On a table with a column [Account], [transpose] with
    [auto_name] and [id_col="Account"] raises: the column is renamed to
    [account] before the identifier values are read, so the column is not
    found, unless the table has a column [account] as well, and then the
    renaming itself raises for the duplicated name. *)
Theorem transpose_id_col_Account (df : DataFrame) include_header :
  "Account" ∈ columns df →
  ("account" ∉ columns df →
     transpose (Some "Account") include_header true df
     = Err (ColumnNotFoundError "Account"))
  ∧ ("account" ∈ columns df →
     transpose (Some "Account") include_header true df
     = Err (DuplicateError "account")).
Proof.
  intros HA. unfold transpose, detect_id_col. cbn [negb].
  rewrite (bool_decide_eq_true_2 _ HA), rename_Account by done.
  split; intros Ha.
  - rewrite (bool_decide_eq_false_2 _ Ha). cbn [mbind Result_bind].
    rewrite get_column_not_found; [done|].
    rewrite normalise_columns. intros [[[=] _]|[? _]]; done.
  - by rewrite (bool_decide_eq_true_2 _ Ha).
Qed.

Lemma transpose_id_col_Account_witness :
  transpose (Some "Account") true true capitalised
  = Err (ColumnNotFoundError "Account").
Proof.
  apply (transpose_id_col_Account capitalised true).
  - by apply (bool_decide_unpack _).
  - by apply (bool_decide_eq_false_1 _).
Defined.

(** C9 (as stated) fails on a table with both spellings of the column:
    the error is the duplicated name, not a column that is not found. *)
Lemma transpose_id_col_Account_duplicate :
  from_csv both_spellings_csv false = Ok both_spellings
  ∧ "Account" ∈ columns both_spellings
  ∧ transpose (Some "Account") true true both_spellings
    = Err (DuplicateError "account")
  ∧ transpose (Some "Account") true true both_spellings
    ≠ Err (ColumnNotFoundError "Account").
Proof.
  split; [reflexivity|]. split; [by apply (bool_decide_unpack _)|].
  split; [reflexivity | discriminate].
Qed.

(** ** col_to_datetime *)

Lemma with_columns_single e (df : DataFrame) :
  with_columns [e] df
  = (s ← get_column (root e) df; o ← apply e s;
     Ok (set_column (root e) o df)).
Proof.
  unfold with_columns.
  change (mapM (λ e0, get_column (root e0) df) [e])
    with (s ← get_column (root e) df; k ← Ok []; mret (s :: k)).
  destruct (get_column (root e) df) as [s|err]; [|done].
  cbn [mbind Result_bind mret Result_ret zip zip_with].
  change (mapM (λ '(e0, s0), apply e0 s0) [(e, s)])
    with (o ← apply e s; k ← Ok []; mret (o :: k)).
  by destruct (apply e s) as [o|err].
Qed.

(** C8. [col_to_datetime] parses the named string column with the given
    format ([%Y-%m] unless the caller gives another).  If some non-null
    value of the column does not parse, the call fails with the error of
    a failed strict conversion.  Otherwise it returns the table with the
    same columns and the same number of rows, in which the named column
    is temporal and holds, row by row, the parsed value of each string
    (null where the string was null), and every other column is
    unchanged. *)
Theorem col_to_datetime_strict (strptime : string → string → option Z)
    datecol_name date_format (df : DataFrame) (v : list (option string)) :
  wf df →
  get_column datecol_name df = Ok (SUtf8 v) →
  ((∃ s, Some s ∈ v ∧ strptime date_format s = None) →
     col_to_datetime strptime datecol_name date_format df
     = Err InvalidOperationError)
  ∧ ((∀ s, Some s ∈ v → is_Some (strptime date_format s)) →
     ∃ df',
       col_to_datetime strptime datecol_name date_format df = Ok df'
       ∧ columns df' = columns df
       ∧ height df' = height df
       ∧ get_column datecol_name df'
         = Ok (SDatetime ((λ x, x ≫= strptime date_format) <$> v))
       ∧ ∀ other, other ≠ datecol_name →
           get_column other df' = get_column other df)
  ∧ default_date_format = "%Y-%m".
Proof.
  intros Hwf Hget. unfold col_to_datetime.
  rewrite with_columns_single. cbn [root str_to_datetime and_then col apply].
  rewrite Hget. cbn [mbind Result_bind fmap Result_fmap].
  pose proof (get_column_len _ _ _ Hwf Hget) as Hlen. simpl in Hlen.
  assert (datecol_name ∈ columns df) as Hin
    by (apply get_column_columns; eauto).
  split; [|split; [|reflexivity]].
  - intros Hbad. by rewrite strict_map_Err.
  - intros Hgood. rewrite strict_map_total by done.
    eexists. split; [reflexivity|].
    split; [by apply set_column_columns|].
    split; [apply set_column_height; [done|]; simpl;
            by rewrite length_fmap|].
    split; [apply get_set_column|].
    intros other Hne. by apply get_set_column_ne.
Qed.

Lemma col_to_datetime_strict_witness :
  col_to_datetime strptime_ym "date" "%Y-%m" misdated
    = Err InvalidOperationError
  ∧ ∃ df',
      col_to_datetime strptime_ym "date" "%Y-%m" balance_by_date = Ok df'
      ∧ get_column "date" df'
        = Ok (SDatetime [Some 1704067200000000%Z; Some 1706745600000000%Z]).
Proof.
  split.
  - apply (col_to_datetime_strict strptime_ym "date" "%Y-%m" misdated
             [Some "2024-01"; Some "Feb 2024"]).
    + by apply (bool_decide_unpack _).
    + reflexivity.
    + exists "Feb 2024". split; [by apply (bool_decide_unpack _) | reflexivity].
  - destruct (col_to_datetime_strict strptime_ym "date" "%Y-%m"
                balance_by_date [Some "2024-01"; Some "2024-02"])
      as (_ & Hgood & _).
    + by apply (bool_decide_unpack _).
    + reflexivity.
    + destruct Hgood as (df' & Hrun & _ & _ & Hcol & _).
      * intros s Hs. apply list_elem_of_In in Hs. simpl in Hs.
        destruct Hs as [[= <-]|[[= <-]|[]]]; by eexists.
      * exists df'. split; [exact Hrun | exact Hcol].
Defined.

(** ** currency_to_number *)

Lemma convert_Ok currency_symbol s o :
  convert currency_symbol s = Ok o ↔
  ∃ r v w,
    regex.compile currency_symbol = Ok r
    ∧ s = SUtf8 v ∧ o = SFloat64 w
    ∧ strict_map str_to_f64
        (fmap (M:=option) (regex.replace_first r "") <$> v) = Ok w.
Proof.
  unfold convert. cbn [cast str_replace and_then col apply root].
  cbn [mbind Result_bind contains_byte list_ascii_of_string existsb].
  split.
  - destruct s as [v| | |]; try discriminate.
    destruct (regex.compile currency_symbol) as [r|]; [|discriminate].
    cbn [mbind Result_bind fmap Result_fmap].
    destruct (strict_map str_to_f64 _) as [w|] eqn:Hw; [|discriminate].
    intros [= <-]. by exists r, v, w.
  - intros (r & v & w & -> & -> & -> & Hw).
    cbn [mbind Result_bind fmap Result_fmap]. by rewrite Hw.
Qed.

Lemma elem_of_targets preserve_cols change_cols (df : DataFrame) c :
  c ∈ targets preserve_cols change_cols df ↔
  c ∈ default (list_to_set (columns df)) change_cols
  ∧ c ∉ default ∅ preserve_cols.
Proof.
  unfold targets. rewrite list_elem_of_In, filter_In, <- list_elem_of_In.
  rewrite elem_of_elements, bool_decide_eq_true. done.
Qed.

Lemma currency_to_number_eq currency_symbol preserve_cols change_cols
    (df : DataFrame) :
  currency_to_number currency_symbol preserve_cols change_cols df
  = with_columns
      ((λ c, cast Float64 (str_replace currency_symbol "" (col c)))
         <$> targets preserve_cols change_cols df) df.
Proof. unfold currency_to_number, targets. by destruct change_cols. Qed.

(** A successful call: the converted columns and the rest. *)
Lemma currency_to_number_Ok currency_symbol preserve_cols change_cols
    (df df' : DataFrame) :
  currency_to_number currency_symbol preserve_cols change_cols df = Ok df' →
  columns df' = columns df
  ∧ (∀ c, c ∉ targets preserve_cols change_cols df →
       get_column c df' = get_column c df)
  ∧ (∀ c, c ∈ targets preserve_cols change_cols df →
       ∃ s o, get_column c df = Ok s
              ∧ convert currency_symbol s = Ok o
              ∧ get_column c df' = Ok o).
Proof.
  rewrite currency_to_number_eq.
  set (ts := targets preserve_cols change_cols df).
  intros H. apply with_columns_Ok in H
    as (inputs & outputs & Hin & Hout & Hnd & ->).
  rewrite <- list_fmap_compose in Hnd |- *.
  change (root ∘ _) with (λ c : string, c) in Hnd |- *.
  rewrite list_fmap_id in Hnd |- *.
  apply Forall2_fmap_l in Hin. cbn [root cast str_replace and_then col] in Hin.
  pose proof (Forall2_length _ _ _ Hin) as Hlen1.
  pose proof (Forall2_length _ _ _ Hout) as Hlen2.
  rewrite length_zip_with, length_fmap in Hlen2.
  assert ((zip ts outputs).*1 = ts) as Hfst by (apply fst_zip; lia).
  split; [|split].
  - apply set_all_columns. apply Forall_forall. intros [n o] Hno.
    apply list_elem_of_lookup in Hno as [i Hi].
    apply lookup_zip_with_Some in Hi as (n' & o' & [= <- <-] & Hn & Ho).
    destruct (Forall2_lookup_l _ _ _ _ _ Hin Hn) as (s & _ & Hs).
    apply get_column_columns. eauto.
  - intros c Hc. apply set_all_other. by rewrite Hfst.
  - intros c Hc. apply list_elem_of_lookup in Hc as [i Hi].
    destruct (Forall2_lookup_l _ _ _ _ _ Hin Hi) as (s & Hs & Hget).
    assert (zip ((λ c, cast Float64 (str_replace currency_symbol "" (col c)))
                   <$> ts) inputs !! i
            = Some (cast Float64 (str_replace currency_symbol "" (col c)), s))
      as Hz.
    { apply lookup_zip_with_Some. eexists _, _. split; [done|].
      split; [|done]. by rewrite list_lookup_fmap, Hi. }
    destruct (Forall2_lookup_l _ _ _ _ _ Hout Hz) as (o & Ho & Happ).
    exists s, o. split; [done|]. split; [exact Happ|].
    apply set_all_get; [by rewrite Hfst|].
    apply list_elem_of_lookup. exists i.
    apply lookup_zip_with_Some. by eexists _, _.
Qed.

Lemma mapM_total {A B} (f : A → Result B) l :
  Forall (λ x, ∃ y, f x = Ok y) l → ∃ k, mapM f l = Ok k.
Proof.
  induction 1 as [|x l [y Hy] _ [k Hk]].
  - by exists [].
  - exists (y :: k). apply mapM_Ok. constructor; [done | by apply mapM_Ok].
Qed.


(** *** The first match of a literal symbol *)






(** C7. A successful [currency_to_number] returns a table with the
    columns of the input, in which every column of the preserve set is
    the column of the input, whether or not the change set lists it too.
    On the table with [date = "2024-01"] and [amount = "£100.50"], and
    [date] preserved, the result has the same [date] and the float
    [100.5] as [amount], also when the change set lists both columns. *)
Theorem currency_to_number_preserve :
  (∀ currency_symbol preserve_cols change_cols (df df' : DataFrame),
     currency_to_number currency_symbol preserve_cols change_cols df
     = Ok df' →
     columns df' = columns df
     ∧ ∀ c, c ∈ default ∅ preserve_cols →
            get_column c df' = get_column c df)
  ∧ currency_to_number "£" (Some {["date"]}) None amounts
    = Ok [("date", SUtf8 [Some "2024-01"]);
          ("amount", SFloat64 [Some 100.5%float])]
  ∧ currency_to_number "£" (Some {["date"]})
      (Some {["date"; "amount"]}) amounts
    = Ok [("date", SUtf8 [Some "2024-01"]);
          ("amount", SFloat64 [Some 100.5%float])].
Proof.
  split; [|split; vm_compute; reflexivity].
  intros sym preserve_cols change_cols df df' Hrun.
  apply currency_to_number_Ok in Hrun as (Hcols & Hother & _).
  split; [done|]. intros c Hc. apply Hother.
  rewrite elem_of_targets. tauto.
Qed.

Lemma currency_to_number_preserve_witness :
  get_column "date"
    [("date", SUtf8 [Some "2024-01"]);
     ("amount", SFloat64 [Some 100.5%float])]
  = get_column "date" amounts.
Proof.
  destruct currency_to_number_preserve as (Hgen & _ & _).
  destruct (Hgen "£" (Some {["date"]}) None amounts
              [("date", SUtf8 [Some "2024-01"]);
               ("amount", SFloat64 [Some 100.5%float])]) as [_ Hkeep].
  - vm_compute. reflexivity.
  - apply Hkeep. apply (bool_decide_unpack _). vm_compute. exact I.
Defined.




(** ** from_csv *)

Lemma imap_fst {A B} (g : nat → A → B) (l : list A) :
  (imap (λ j x, (x, g j x)) l).*1 = l.
Proof.
  revert g. induction l as [|x l IH]; intros g; simpl; [done|].
  f_equal. apply (IH (g ∘ S)).
Qed.

(** C5 (as amended). When [from_csv] with [infer_schema=False] loads a
    text, the columns of the table are named by the fields of the header
    line, every column is a string column with one value per further
    line, and the value of a cell is the text of its field, unchanged,
    when the field is not empty, and null when the field is empty.  The
    scenario's text loads as its three string columns. *)
Theorem from_csv_strings :
  (∀ csv_text (df : DataFrame),
     from_csv csv_text false = Ok df →
     ∃ header body,
       lines csv_text = header :: body
       ∧ columns df = fields header
       ∧ Forall (λ c, dtype c.2 = Utf8 ∧ len c.2 = length body) df
       ∧ ∀ i j line name s,
           body !! i = Some line → df !! j = Some (name, s) →
           ∃ field v,
             fields line !! j = Some field
             ∧ s = SUtf8 v
             ∧ v !! i = Some (if decide (field = "") then None
                              else Some field))
  ∧ (∀ csv_text header body,
       contains_byte "034" csv_text = false →
       contains_byte "013" csv_text = false →
       lines csv_text = header :: body →
       "" ∉ fields header → NoDup (fields header) →
       Forall (λ l, length (fields l) = length (fields header)) body →
       ∃ df, from_csv csv_text false = Ok df)
  ∧ from_csv balance_csv false
    = Ok [("account", SUtf8 [Some "expenses:food"]);
          ("2024-01", SUtf8 [Some "£100"]);
          ("2024-02", SUtf8 [Some "£150"])].
Proof.
  split; [|split; [|vm_compute; reflexivity]]; cycle 1.
  { intros csv_text header body Hq Hcr Hlines Hempty Hnd Hrect.
    unfold from_csv, read_csv. rewrite Hq, Hcr, Hlines. cbn [orb].
    rewrite (bool_decide_eq_false_2 _ Hempty).
    apply first_duplicate_NoDup in Hnd. rewrite Hnd.
    rewrite bool_decide_eq_false_2 by (by intros ?).
    assert (existsb (λ l, negb (Nat.eqb (length (fields l))
                                        (length (fields header)))) body
            = false) as ->; [|by eexists].
    apply not_true_is_false. intros (l & Hl & Hne)%existsb_exists.
    rewrite Forall_forall in Hrect.
    apply negb_true_iff, Nat.eqb_neq in Hne.
    apply Hne, Hrect. by apply list_elem_of_In. }
  intros csv_text df. unfold from_csv, read_csv.
  destruct (contains_byte _ csv_text || contains_byte _ csv_text);
    [discriminate|].
  destruct (lines csv_text) as [|header body]; [discriminate|].
  case_bool_decide; [discriminate|].
  case_bool_decide; [discriminate|].
  destruct (existsb _ body) eqn:Hragged; [discriminate|].
  intros [= <-]. exists header, body. split; [done|].
  assert (∀ line, line ∈ body →
            length (fields line) = length (fields header)) as Hrect.
  { intros line Hline. apply list_elem_of_In in Hline.
    destruct (Nat.eqb_spec (length (fields line)) (length (fields header)))
      as [|Hne]; [done|].
    assert (existsb (λ l, negb (Nat.eqb (length (fields l))
                                        (length (fields header)))) body
            = true) as Hex; [|congruence].
    apply existsb_exists. exists line. split; [done|].
    by apply negb_true_iff, Nat.eqb_neq. }
  split; [|split].
  - unfold columns. apply imap_fst.
  - apply Forall_forall. intros [name s] Hin.
    apply list_elem_of_lookup in Hin as [j Hj].
    rewrite list_lookup_imap in Hj.
    destruct (fields header !! j); [|discriminate].
    injection Hj as <- <-. simpl. by rewrite length_fmap.
  - intros i j line name s Hline Hcol.
    rewrite list_lookup_imap in Hcol.
    destruct (fields header !! j) as [n|] eqn:Hn; [|discriminate].
    injection Hcol as <- <-.
    assert (j < length (fields line)) as Hj.
    { rewrite Hrect by (by eapply list_elem_of_lookup_2).
      by eapply lookup_lt_Some. }
    apply lookup_lt_is_Some_2 in Hj as [field Hfield].
    exists field. eexists. split; [done|]. split; [reflexivity|].
    rewrite list_lookup_fmap, Hline. simpl. f_equal.
    rewrite (nth_lookup_Some _ _ _ _ Hfield).
    unfold cell. destruct field; by case_decide.
Qed.

Lemma from_csv_strings_witness :
  ∃ header body,
    lines balance_csv = header :: body
    ∧ columns balance = fields header
    ∧ Forall (λ c, dtype c.2 = Utf8 ∧ len c.2 = length body) balance
    ∧ ∀ i j line name s,
        body !! i = Some line → balance !! j = Some (name, s) →
        ∃ field v,
          fields line !! j = Some field
          ∧ s = SUtf8 v
          ∧ v !! i = Some (if decide (field = "") then None else Some field).
Proof.
  destruct from_csv_strings as (Hgen & _).
  apply (Hgen balance_csv balance).
  vm_compute. reflexivity.
Defined.

(** C5 (as stated) fails on an empty field: the text of the cell is the
    empty string and the table holds a null. *)
Lemma from_csv_empty_field_is_null :
  from_csv unnamed_csv false = Ok unnamed
  ∧ lines unnamed_csv !! 2 = Some ",£7"
  ∧ fields ",£7" !! 0 = Some ""
  ∧ get_column "account" unnamed = Ok (SUtf8 [Some "assets"; None])
  ∧ ¬ ∀ i j line name s,
        lines unnamed_csv !! S i = Some line →
        unnamed !! j = Some (name, s) →
        ∃ field v,
          fields line !! j = Some field
          ∧ s = SUtf8 v
          ∧ v !! i = Some (Some field).
Proof.
  split; [vm_compute; reflexivity|].
  split; [vm_compute; reflexivity|].
  split; [reflexivity|]. split; [reflexivity|].
  intros H.
  destruct (H 1 0 ",£7" "account" (SUtf8 [Some "assets"; None]))
    as (field & v & _ & [= <-] & Hv).
  - vm_compute. reflexivity.
  - reflexivity.
  - discriminate.
Qed.


End HLDataFrameSpec.

(** * Further properties of hlcommand.py *)

Module HledgerCommandProps.
Import HledgerCommand HledgerCommandSpec More.

(** The argument list of any configuration, option by option. *)
Lemma full_command_eq self subcommand accounts ignore extra_options :
  full_command self subcommand accounts ignore extra_options
  = ["hledger"; subcommand]
      ++ flag "--file=" (ledgerfile self)
      ++ flag "--period=" (period self)
      ++ flag "--begin=" (begin_date self)
      ++ flag "--end=" (end_date self)
      ++ flag "--" (periodic self)
      ++ flag "--output-format=" (output_format self)
      ++ default [] (other_options self)
      ++ default [] extra_options
      ++ default [] accounts
      ++ map (String.append "not:") (default [] ignore).
Proof.
  unfold full_command.
  rewrite !append_each_map, !append_if_flag, !map_id.
  rewrite <- !app_assoc. reflexivity.
Qed.

Lemma flag_same_option prefix o o' :
  same_option o o' → flag prefix o = flag prefix o'.
Proof.
  intros [->|[H H']]; [done|].
  destruct o as [[|??]|], o' as [[|??]|]; simpl in *; done.
Qed.

(** X1. [run] does not tell an option that is [None] from one that is the
    empty string, nor a list argument that is [None] from an empty list:
    configurations and calls that differ only in this way give the same
    argument list. *)
Theorem full_command_falsy self self' subcommand
    accounts accounts' ignore ignore' extra_options extra_options' :
  same_option (ledgerfile self) (ledgerfile self') →
  same_option (period self) (period self') →
  same_option (begin_date self) (begin_date self') →
  same_option (end_date self) (end_date self') →
  same_option (periodic self) (periodic self') →
  same_option (output_format self) (output_format self') →
  default [] (other_options self) = default [] (other_options self') →
  default [] extra_options = default [] extra_options' →
  default [] accounts = default [] accounts' →
  default [] ignore = default [] ignore' →
  full_command self subcommand accounts ignore extra_options
  = full_command self' subcommand accounts' ignore' extra_options'.
Proof.
  intros Hlf Hpe Hbd Hed Hpc Hfmt Hoo Hex Hacc Hign.
  rewrite !full_command_eq.
  rewrite (flag_same_option _ _ _ Hlf), (flag_same_option _ _ _ Hpe),
    (flag_same_option _ _ _ Hbd), (flag_same_option _ _ _ Hed),
    (flag_same_option _ _ _ Hpc), (flag_same_option _ _ _ Hfmt).
  by rewrite Hoo, Hex, Hacc, Hign.
Qed.

Lemma full_command_falsy_witness :
  full_command (init (Some "") None (Some "") None None None (Some []))
               "print" (Some []) None (Some ["-x"])
  = full_command (init None None None (Some "") None (Some "") None)
                 "print" None (Some []) (Some ["-x"]).
Proof.
  apply full_command_falsy; simpl;
    try reflexivity; try (by left); by right.
Defined.

(** X2. The per-call extra options follow the global ones directly: a
    call with extra options gives the argument list of the same call
    without them on the configuration whose global options have them
    appended. *)
Theorem full_command_extra_options self subcommand accounts ignore
    extra_options :
  full_command self subcommand accounts ignore extra_options
  = full_command
      (with_other_options self
         (Some (default [] (other_options self) ++ default [] extra_options)))
      subcommand accounts ignore None.
Proof.
  rewrite !full_command_eq. destruct self; simpl.
  by rewrite <- ?app_assoc.
Qed.

(** X3. Accounts are passed on literally, so an account that is spelt
    [not:x] is the request to ignore [x]: listing the ignored accounts,
    prefixed, after the accounts gives the argument list of the call
    with the [ignore] argument. *)
Theorem full_command_not_prefix self subcommand
    (accounts ignore : list string) extra_options :
  full_command self subcommand
    (Some (accounts ++ map (String.append "not:") ignore)) None
    extra_options
  = full_command self subcommand (Some accounts) (Some ignore)
      extra_options.
Proof.
  rewrite !full_command_eq. simpl.
  by rewrite ?app_nil_r, <- ?app_assoc.
Qed.

(** X4. [run] returns a stream only for a call whose process was given
    the [--output-format=] flag of the configured format, and the stream
    holds what that process printed. *)
Theorem run_stream_format (hledger : list string → CompletedProcess)
    self subcommand accounts ignore extra_options w io w' :
  run hledger self subcommand accounts ignore extra_options w
  = (inr (Stream io), w') →
  ∃ format args,
    output_format self = Some format
    ∧ w' = w ++ [args]
    ∧ "--output-format=" +:+ format ∈ args
    ∧ returncode (hledger args) = 0%Z
    ∧ getvalue io = stdout (hledger args)
    ∧ tell io = 0.
Proof.
  unfold run, subprocess_run.
  set (args := full_command self subcommand accounts ignore extra_options).
  destruct (Z.eqb_spec (returncode (hledger args)) 0) as [Hz|]; [|done].
  destruct (output_format self) as [[|c format]|] eqn:Hfmt; simpl; try done.
  intros [= <- <-]. exists (String c format), args.
  repeat split; try done.
  subst args. rewrite full_command_eq, Hfmt. simpl.
  set_solver.
Qed.

Lemma run_stream_format_witness :
  ∃ format args,
    output_format (init None None None None None (Some "csv") None)
    = Some format
    ∧ [["hledger"; "balance"; "--output-format=csv"]] = [] ++ [args]
    ∧ "--output-format=" +:+ format ∈ args
    ∧ returncode (hledger_csv args) = 0%Z
    ∧ getvalue (StringIO_new Examples.balance_csv) = stdout (hledger_csv args)
    ∧ tell (StringIO_new Examples.balance_csv) = 0.
Proof.
  apply (run_stream_format hledger_csv
           (init None None None None None (Some "csv") None)
           "balance" None None None []).
  reflexivity.
Defined.

(** A format passed as an extra option reaches [hledger] but does not
    make [run] return a stream. *)
Example run_format_as_extra_option :
  run hledger_csv (init None None None None None None None)
      "balance" None None (Some ["--output-format=csv"]) []
  = (inr (Text Examples.balance_csv),
     [["hledger"; "balance"; "--output-format=csv"]]).
Proof. reflexivity. Qed.

End HledgerCommandProps.

(** * Further properties of hldataframe.py *)

Module HLDataFrameProps.
Import pl plFacts HLDataFrame Examples More HLDataFrameSpec.

(** ** from_csv *)

(** X5. A table that [from_csv] loads with [infer_schema=False] has
    distinct column names, only string columns, and as many values in
    every column as the text has lines after the header. *)
Theorem from_csv_wf csv_text (df : DataFrame) :
  from_csv csv_text false = Ok df →
  wf df
  ∧ Forall (λ c, dtype c.2 = Utf8) df
  ∧ S (height df) = length (lines csv_text).
Proof.
  unfold from_csv, read_csv.
  destruct (contains_byte _ csv_text || contains_byte _ csv_text);
    [discriminate|].
  destruct (lines csv_text) as [|header body]; [discriminate|].
  case_bool_decide; [discriminate|].
  case_bool_decide as Hdup; [discriminate|].
  destruct (existsb _ body); [discriminate|].
  intros [= <-].
  set (df := imap _ (fields header)).
  assert (columns df = fields header) as Hcols by apply imap_fst.
  assert (Forall (λ c, dtype c.2 = Utf8 ∧ len c.2 = length body) df) as Hall.
  { apply Forall_forall. intros [name s] Hin.
    apply list_elem_of_lookup in Hin as [j Hj].
    subst df. rewrite list_lookup_imap in Hj.
    destruct (fields header !! j); [|discriminate].
    injection Hj as <- <-. simpl. by rewrite length_fmap. }
  assert (height df = length body) as Hh.
  { assert (df ≠ []) as Hne.
    { intros E. rewrite E in Hcols. simpl in Hcols.
      unfold fields in Hcols. destruct header as [|c header]; [done|].
      simpl in Hcols. destruct (Ascii.eqb c ","); [done|].
      by destruct (split_on "," header). }
    destruct df as [|[n s] df']; [done|].
    by inversion Hall as [|?? [_ ?] _]. }
  split; [split|split].
  - rewrite Hcols. apply first_duplicate_NoDup.
    destruct (first_duplicate (fields header)); [|done].
    by destruct Hdup.
  - rewrite Hh. eapply Forall_impl; [exact Hall|]. by intros ? [_ ?].
  - eapply Forall_impl; [exact Hall|]. by intros ? [? _].
  - simpl. by rewrite Hh.
Qed.

Lemma from_csv_wf_witness :
  wf balance
  ∧ Forall (λ c, dtype c.2 = Utf8) balance
  ∧ S (height balance) = length (lines balance_csv).
Proof. apply from_csv_wf. vm_compute. reflexivity. Defined.

(** ** filter_accounts *)



Lemma keep_selected {A} r (exclude : bool) (v : list (option string))
    (w : list A) :
  keep (fmap (M:=option) (λ b : bool, if exclude then negb b else b)
          <$> (fmap (M:=option) (regex.is_match r) <$> v)) w
  = keep (Some <$> (selected r exclude <$> v)) w.
Proof.
  revert w. induction v as [|[a|] v IH]; intros [|x w]; simpl; try done.
  destruct exclude, (regex.is_match r a); simpl;
    try apply (f_equal (cons x)); apply IH.
Qed.

Lemma filter_accounts_take patterns account_col exclude (df : DataFrame)
    (v : list (option string)) r :
  wf df →
  get_column account_col df = Ok (SUtf8 v) →
  regex.compile (String.concat "|" (as_list patterns)) = Ok r →
  filter_accounts patterns account_col exclude df
  = Ok (take_rows (true_from 0 (selected r exclude <$> v)) df).
Proof.
  intros Hwf Hcol Hre.
  pose proof (get_column_len _ _ _ Hwf Hcol) as Hlen. simpl in Hlen.
  rewrite (filter_accounts_mask _ _ _ _ _ r Hcol Hre). f_equal.
  rewrite <- filter_mask_take by (by rewrite ?length_fmap).
  apply Forall_fmap_ext_1, Forall_forall. intros [n s] _.
  unfold prod_map; simpl. f_equal.
  destruct s; simpl; f_equal; apply keep_selected.
Qed.


Lemma elem_of_true_from mask i j :
  j ∈ true_from i mask ↔ ∃ k, j = i + k ∧ mask !! k = Some true.
Proof.
  revert i. induction mask as [|b mask IH]; intros i; simpl.
  - split; [by intros ?%elem_of_nil | by intros (k & _ & ?)].
  - assert (j ∈ true_from (S i) mask ↔
            ∃ k, j = i + S k ∧ mask !! k = Some true) as IH'.
    { rewrite IH. by setoid_rewrite Nat.add_succ_r. }
    destruct b; rewrite ?elem_of_cons, IH'; split.
    + intros [->|(k & -> & Hk)]; [exists 0; by rewrite Nat.add_0_r|].
      by exists (S k).
    + intros ([|k] & -> & Hk); [left; lia|]. right. by exists k.
    + intros (k & -> & Hk). by exists (S k).
    + intros ([|k] & -> & Hk); [done|]. by exists k.
Qed.

Lemma gather_length {A} (idx : list nat) (v : list A) :
  Forall (λ i, i < length v) idx → length (gather idx v) = length idx.
Proof.
  unfold gather. induction 1 as [|i idx Hi _ IH]; simpl; [done|].
  apply lookup_lt_is_Some_2 in Hi as [x Hx].
  change (length (match v !! i with
                  | Some y => y :: omap (λ i, v !! i) idx
                  | None => omap (λ i, v !! i) idx
                  end) = S (length idx)).
  rewrite Hx. simpl. by f_equal.
Qed.

Lemma take_rows_columns idx (df : DataFrame) :
  columns (take_rows idx df) = columns df.
Proof.
  unfold take_rows, columns. rewrite <- list_fmap_compose.
  by apply list_fmap_ext.
Qed.

Lemma take_rows_wf idx (df : DataFrame) :
  wf df → Forall (λ i, i < height df) idx →
  wf (take_rows idx df)
  ∧ (df ≠ [] → height (take_rows idx df) = length idx).
Proof.
  intros [Hnd Hlen] Hidx.
  assert (Forall (λ c, len c.2 = length idx) (take_rows idx df)) as Hall.
  { unfold take_rows. apply Forall_fmap.
    eapply Forall_impl; [exact Hlen|]. intros [n s] Hs. simpl in *.
    destruct s; simpl in *; apply gather_length; by rewrite Hs. }
  assert (df ≠ [] → height (take_rows idx df) = length idx) as Hh.
  { destruct df as [|[n s] df]; [done|]. intros _.
    by inversion Hall. }
  split; [|done]. split; [by rewrite take_rows_columns|].
  destruct df as [|c df]; [constructor|].
  by rewrite Hh.
Qed.



(** *** Several patterns *)











(** *** Filtering twice *)

Lemma get_column_take_rows name idx (df : DataFrame) :
  get_column name (take_rows idx df) = gather_rows idx <$> get_column name df.
Proof.
  induction df as [|[n s] df IH]; simpl; [done|].
  by destruct (String.eqb n name).
Qed.

Lemma true_from_all_true mask i :
  Forall (λ b, b = true) mask → true_from i mask = seq i (length mask).
Proof.
  intros H. revert i. induction H as [|b mask -> _ IH]; intros i; simpl;
    [done | by rewrite IH].
Qed.

Lemma true_from_all_false mask i :
  Forall (λ b, b = false) mask → true_from i mask = [].
Proof.
  intros H. revert i. induction H as [|b mask -> _ IH]; intros i; simpl;
    [done | by rewrite IH].
Qed.

Lemma gather_seq_app {A} (pre w : list A) :
  gather (seq (length pre) (length w)) (pre ++ w) = w.
Proof.
  revert pre. induction w as [|x w IH]; intros pre; [done|].
  change (gather (seq (length pre) (length (x :: w))) (pre ++ x :: w))
    with (match (pre ++ x :: w) !! length pre with
          | Some y => y :: gather (seq (S (length pre)) (length w))
                             (pre ++ x :: w)
          | None => gather (seq (S (length pre)) (length w)) (pre ++ x :: w)
          end).
  rewrite list_lookup_middle by done. f_equal.
  specialize (IH (pre ++ [x])).
  by rewrite length_app, Nat.add_1_r, <- app_assoc in IH.
Qed.

Lemma take_rows_all (df : DataFrame) :
  wf df → take_rows (seq 0 (height df)) df = df.
Proof.
  intros [_ Hlen]. unfold take_rows. rewrite <- (list_fmap_id df) at 3.
  apply Forall_fmap_ext_1. eapply Forall_impl; [exact Hlen|].
  intros [n s] Hs. simpl in Hs. unfold prod_map. simpl. f_equal.
  rewrite <- Hs.
  destruct s; simpl; f_equal; apply (gather_seq_app []).
Qed.

Lemma Forall_gather {A} (P : A → Prop) idx (v : list A) :
  (∀ i x, i ∈ idx → v !! i = Some x → P x) → Forall P (gather idx v).
Proof.
  intros H. apply Forall_forall. intros x Hx.
  apply list_elem_of_omap in Hx as (i & Hi & Hx). eauto.
Qed.

Lemma filter_accounts_Ok patterns account_col exclude (df df1 : DataFrame)
    (v : list (option string)) :
  wf df →
  get_column account_col df = Ok (SUtf8 v) →
  filter_accounts patterns account_col exclude df = Ok df1 →
  ∃ r, regex.compile (String.concat "|" (as_list patterns)) = Ok r
       ∧ df1 = take_rows (true_from 0 (selected r exclude <$> v)) df.
Proof.
  intros Hwf Hcol Hrun.
  destruct (regex.compile (String.concat "|" (as_list patterns)))
    as [r|e] eqn:Hr.
  - exists r. split; [done|].
    rewrite (filter_accounts_take _ _ _ _ _ r Hwf Hcol Hr) in Hrun.
    by injection Hrun.
  - exfalso. revert Hrun. unfold filter_accounts, filter, eval.
    destruct exclude; simpl; rewrite Hcol; simpl; by rewrite Hr.
Qed.

(** X9. Filtering the result of [filter_accounts] again with the same
    arguments returns it unchanged, and filtering it with the opposite
    [exclude] leaves no row. *)
Theorem filter_accounts_again patterns account_col exclude
    (df df1 : DataFrame) (v : list (option string)) :
  wf df →
  get_column account_col df = Ok (SUtf8 v) →
  filter_accounts patterns account_col exclude df = Ok df1 →
  filter_accounts patterns account_col exclude df1 = Ok df1
  ∧ filter_accounts patterns account_col (negb exclude) df1
    = Ok (take_rows [] df1).
Proof.
  intros Hwf Hcol Hrun.
  destruct (filter_accounts_Ok _ _ _ _ _ _ Hwf Hcol Hrun) as (r & Hr & ->).
  pose proof (get_column_len _ _ _ Hwf Hcol) as Hlen. simpl in Hlen.
  set (idx := true_from 0 (selected r exclude <$> v)).
  assert (Forall (λ i, i < height df) idx) as Hidx.
  { apply Forall_forall. intros i Hi.
    apply elem_of_true_from in Hi as (k & -> & Hk).
    apply lookup_lt_Some in Hk. rewrite length_fmap in Hk. simpl. lia. }
  destruct (take_rows_wf idx df Hwf Hidx) as [Hwf1 Hh1].
  assert (get_column account_col (take_rows idx df)
          = Ok (SUtf8 (gather idx v))) as Hcol1.
  { by rewrite get_column_take_rows, Hcol. }
  assert (Forall (λ x, selected r exclude x = true) (gather idx v)) as Hsel.
  { apply Forall_gather. intros i x Hi Hx.
    apply elem_of_true_from in Hi as (k & E & Hk). simpl in E. subst k.
    rewrite list_lookup_fmap, Hx in Hk. by injection Hk. }
  assert (height (take_rows idx df) = length (gather idx v)) as Hh.
  { rewrite Hh1 by (intros ->; discriminate).
    symmetry. apply gather_length. by rewrite Hlen. }
  split.
  - rewrite (filter_accounts_take _ _ _ _ _ r Hwf1 Hcol1 Hr).
    rewrite true_from_all_true by (by apply Forall_fmap).
    rewrite length_fmap, <- Hh. by rewrite take_rows_all.
  - rewrite (filter_accounts_take _ _ _ _ _ r Hwf1 Hcol1 Hr).
    rewrite true_from_all_false; [done|].
    apply Forall_fmap. eapply Forall_impl; [exact Hsel|].
    intros [a|]; simpl; [|done].
    by destruct exclude, (regex.is_match r a).
Qed.

Lemma filter_accounts_again_witness :
  filter_accounts (One "assets") "account" false
    [("account", SUtf8 [Some "assets"]); ("amount", SUtf8 [Some "£5"])]
  = Ok [("account", SUtf8 [Some "assets"]); ("amount", SUtf8 [Some "£5"])]
  ∧ filter_accounts (One "assets") "account" (negb false)
      [("account", SUtf8 [Some "assets"]); ("amount", SUtf8 [Some "£5"])]
    = Ok (take_rows []
            [("account", SUtf8 [Some "assets"]);
             ("amount", SUtf8 [Some "£5"])]).
Proof.
  apply (filter_accounts_again (One "assets") "account" false unnamed
           _ [Some "assets"; None]).
  - by apply (bool_decide_unpack _).
  - reflexivity.
  - reflexivity.
Defined.

(** ** col_to_datetime *)

(** X10. [col_to_datetime] raises the error of a missing column when the
    table has no column of the given name, and a schema error when the
    column is not a string column, whatever the format and the parser
    are. *)
Theorem col_to_datetime_bad_column (strptime : string → string → option Z)
    datecol_name date_format (df : DataFrame) :
  (datecol_name ∉ columns df →
     col_to_datetime strptime datecol_name date_format df
     = Err (ColumnNotFoundError datecol_name))
  ∧ (∀ s, get_column datecol_name df = Ok s → dtype s ≠ Utf8 →
       col_to_datetime strptime datecol_name date_format df
       = Err SchemaError).
Proof.
  unfold col_to_datetime. rewrite with_columns_single.
  cbn [root str_to_datetime and_then col apply]. split.
  - intros Hnin. by rewrite get_column_not_found.
  - intros s Hs Hty. rewrite Hs. by destruct s.
Qed.

Lemma col_to_datetime_bad_column_witness :
  col_to_datetime strptime_ym "date" "%Y-%m" balance
    = Err (ColumnNotFoundError "date")
  ∧ col_to_datetime strptime_ym "date" "%Y-%m"
      [("date", SDatetime [Some 0%Z])]
    = Err SchemaError.
Proof.
  split.
  - apply (col_to_datetime_bad_column strptime_ym "date" "%Y-%m" balance).
    by apply (bool_decide_unpack _).
  - destruct (col_to_datetime_bad_column strptime_ym "date" "%Y-%m"
                [("date", SDatetime [Some 0%Z])]) as [_ Hschema].
    apply (Hschema (SDatetime [Some 0%Z])); [reflexivity | discriminate].
Defined.

(** X11. [col_to_datetime] cannot be applied twice: on the table a
    successful call returns, the same call raises a schema error, because
    the column is no longer a string column. *)
Theorem col_to_datetime_twice (strptime : string → string → option Z)
    datecol_name date_format (df df' : DataFrame) :
  col_to_datetime strptime datecol_name date_format df = Ok df' →
  col_to_datetime strptime datecol_name date_format df' = Err SchemaError.
Proof.
  unfold col_to_datetime. rewrite !with_columns_single.
  cbn [root str_to_datetime and_then col apply].
  destruct (get_column datecol_name df) as [s|] eqn:Hs; [|discriminate].
  cbn [mbind Result_bind].
  destruct s as [v| | |]; try discriminate.
  cbn [fmap Result_fmap].
  destruct (strict_map (strptime date_format) v) as [w|]; [|discriminate].
  intros [= <-]. by rewrite get_set_column.
Qed.

Lemma col_to_datetime_twice_witness :
  col_to_datetime strptime_ym "date" "%Y-%m"
    [("date", SDatetime [Some 1704067200000000%Z; Some 1706745600000000%Z]);
     ("expenses:food", SUtf8 [Some "£100"; Some "£150"])]
  = Err SchemaError.
Proof.
  apply (col_to_datetime_twice strptime_ym "date" "%Y-%m" balance_by_date).
  vm_compute. reflexivity.
Defined.

(** ** currency_to_number *)

Lemma mapM_Err {A B} (f : A → Result B) l e :
  mapM f l = Err e → ∃ x, x ∈ l ∧ f x = Err e.
Proof.
  induction l as [|x l IH]; [discriminate|].
  change (mapM f (x :: l)) with (y ← f x; k ← mapM f l; mret (y :: k)).
  destruct (f x) as [y|e'] eqn:Hx.
  - cbn [mbind Result_bind].
    destruct (mapM f l) as [k|e'] eqn:Hl; [discriminate|].
    intros [= ->]. destruct IH as (x' & Hin & Hx'); [done|].
    exists x'. split; [by right | done].
  - intros [= ->]. exists x. split; [left | done].
Qed.

Lemma mapM_fails {A B} (f : A → Result B) l x e :
  x ∈ l → f x = Err e → ∃ e', mapM f l = Err e'.
Proof.
  intros Hin Hx. destruct (mapM f l) as [k|e'] eqn:Hl; [|by eauto].
  apply mapM_Ok in Hl. apply list_elem_of_lookup in Hin as [i Hi].
  destruct (Forall2_lookup_l _ _ _ _ _ Hl Hi) as (y & _ & Hy). congruence.
Qed.

Lemma get_column_Err name (df : DataFrame) e :
  get_column name df = Err e →
  e = ColumnNotFoundError name ∧ name ∉ columns df.
Proof.
  intros H. destruct (decide (name ∈ columns df)) as [Hin|Hnin].
  - apply get_column_columns in Hin as [s Hs]. congruence.
  - rewrite get_column_not_found in H by done. by injection H as <-.
Qed.

Lemma get_column_elem name s (df : DataFrame) :
  NoDup (columns df) → (name, s) ∈ df → get_column name df = Ok s.
Proof.
  unfold columns. induction df as [|[n s'] df IH]; simpl.
  - by intros _ ?%elem_of_nil.
  - intros [Hn Hnd]%NoDup_cons [[= <- <-]|Hin]%elem_of_cons.
    + by rewrite String.eqb_refl.
    + destruct (String.eqb_spec n name) as [->|_]; [|by apply IH].
      destruct Hn. apply list_elem_of_fmap. by exists (name, s).
Qed.

Lemma convert_len currency_symbol s o :
  convert currency_symbol s = Ok o → len o = len s ∧ dtype o = Float64.
Proof.
  intros (r & v & w & _ & -> & -> & Hw)%convert_Ok.
  apply strict_map_Ok, Forall2_length in Hw.
  rewrite length_fmap in Hw. by simpl.
Qed.


(** X12. When no column is to be converted, because every column of the
    change set (every column of the table, by default) is in the preserve
    set, [currency_to_number] returns the table as it is, whatever the
    currency symbol is. *)
Theorem currency_to_number_nothing currency_symbol preserve_cols change_cols
    (df : DataFrame) :
  (∀ c, c ∈ default (list_to_set (columns df)) change_cols →
        c ∈ default ∅ preserve_cols) →
  currency_to_number currency_symbol preserve_cols change_cols df = Ok df.
Proof.
  intros Hall. rewrite currency_to_number_eq.
  assert (targets preserve_cols change_cols df = []) as ->; [|done].
  apply elem_of_nil_inv. intros c [Hc Hp]%elem_of_targets. auto.
Qed.

Lemma currency_to_number_nothing_witness :
  currency_to_number "$" (Some {["date"; "amount"]}) None amounts
  = Ok amounts.
Proof.
  apply currency_to_number_nothing. simpl. intros c Hc. set_solver.
Defined.

(** X13. When the change set names a column that the table does not have
    and that is not in the preserve set, [currency_to_number] raises the
    error of a missing column, and converts nothing. *)
Theorem currency_to_number_missing currency_symbol preserve_cols change_cols
    (df : DataFrame) c :
  c ∈ default (list_to_set (columns df)) change_cols →
  c ∉ default ∅ preserve_cols →
  c ∉ columns df →
  ∃ c', (c' ∉ columns df)
        ∧ c' ∈ default (list_to_set (columns df)) change_cols
        ∧ (c' ∉ default ∅ preserve_cols)
        ∧ currency_to_number currency_symbol preserve_cols change_cols df
          = Err (ColumnNotFoundError c').
Proof.
  intros Hc Hp Hnin. rewrite currency_to_number_eq.
  set (ts := targets preserve_cols change_cols df).
  set (exprs := (λ c, cast Float64 (str_replace currency_symbol "" (col c)))
                  <$> ts).
  destruct (mapM_fails (λ e, get_column (root e) df) exprs
              (cast Float64 (str_replace currency_symbol "" (col c)))
              (ColumnNotFoundError c)) as [e He].
  { subst exprs. apply list_elem_of_fmap. exists c.
    split; [done | by apply elem_of_targets]. }
  { by apply get_column_not_found. }
  destruct (mapM_Err _ _ _ He) as (x & Hx & Hget).
  subst exprs. apply list_elem_of_fmap in Hx as (c' & -> & Hc').
  cbn [root cast str_replace and_then col] in Hget.
  apply get_column_Err in Hget as [-> Hnin'].
  apply elem_of_targets in Hc' as [? ?].
  exists c'. repeat split; try done.
  unfold with_columns. fold ts. by rewrite He.
Qed.

Lemma currency_to_number_missing_witness :
  ∃ c', (c' ∉ columns amounts)
        ∧ c' ∈ default (list_to_set (columns amounts))
                 (Some ({["total"]} : gset string))
        ∧ (c' ∉ default ∅ (Some ({["date"]} : gset string)))
        ∧ currency_to_number "£" (Some {["date"]}) (Some {["total"]}) amounts
          = Err (ColumnNotFoundError c').
Proof.
  apply (currency_to_number_missing "£" (Some {["date"]}) (Some {["total"]})
           amounts "total").
  - simpl. set_solver.
  - simpl. set_solver.
  - by apply (bool_decide_unpack _).
Defined.

(** The expression of line 253 on a string column: the converted column,
    or the error of a failed strict conversion. *)
Lemma convert_utf8 currency_symbol r (v : list (option string)) :
  regex.compile currency_symbol = Ok r →
  convert currency_symbol (SUtf8 v)
  = SFloat64 <$> strict_map str_to_f64
                   (fmap (M:=option) (regex.replace_first r "") <$> v).
Proof.
  intros Hr. unfold convert.
  cbn [cast str_replace and_then col apply root].
  cbn [mbind Result_bind contains_byte list_ascii_of_string existsb].
  rewrite Hr. cbn [mbind Result_bind]. reflexivity.
Qed.

Lemma strict_map_cases {A B} (f : A → option B) v :
  (∃ w, strict_map f v = Ok w) ∨ strict_map f v = Err InvalidOperationError.
Proof. unfold strict_map. destruct (mapM _ v); eauto. Qed.

(** X14. The conversion is strict: when the currency symbol compiles,
    every column to convert is a string column, and some value of one of
    them does not parse as a float once the first match of the symbol is
    removed, [currency_to_number] raises the error of a failed
    conversion; no value is replaced by a null and no row is dropped. *)
Theorem currency_to_number_strict currency_symbol preserve_cols change_cols
    (df : DataFrame) r c (v : list (option string)) s :
  regex.compile currency_symbol = Ok r →
  (∀ c', c' ∈ default (list_to_set (columns df)) change_cols →
         c' ∉ default ∅ preserve_cols →
         ∃ v', get_column c' df = Ok (SUtf8 v')) →
  c ∈ default (list_to_set (columns df)) change_cols →
  c ∉ default ∅ preserve_cols →
  get_column c df = Ok (SUtf8 v) →
  Some s ∈ v →
  str_to_f64 (regex.replace_first r "" s) = None →
  currency_to_number currency_symbol preserve_cols change_cols df
  = Err InvalidOperationError.
Proof.
  intros Hr Hall Hc Hp Hv Hs Hbad. rewrite currency_to_number_eq.
  set (ts := targets preserve_cols change_cols df).
  set (exprs := (λ c, cast Float64 (str_replace currency_symbol "" (col c)))
                  <$> ts).
  assert (c ∈ ts) as Hts by (by apply elem_of_targets).
  destruct (mapM_total (λ e, get_column (root e) df) exprs) as [inputs Hin].
  { subst exprs. apply Forall_fmap, Forall_forall.
    intros c' [? ?]%elem_of_targets.
    destruct (Hall c') as [v' Hv']; by eauto. }
  unfold with_columns. fold ts. fold exprs. rewrite Hin.
  cbn [mbind Result_bind]. apply mapM_Ok in Hin.
  assert (convert currency_symbol (SUtf8 v) = Err InvalidOperationError)
    as Hconv.
  { rewrite (convert_utf8 _ r) by done.
    rewrite strict_map_Err; [done|].
    exists (regex.replace_first r "" s). split; [|done].
    apply list_elem_of_fmap. by exists (Some s). }
  apply list_elem_of_lookup in Hts as [i Hi].
  assert (exprs !! i
          = Some (cast Float64 (str_replace currency_symbol "" (col c))))
    as Hei by (subst exprs; by rewrite list_lookup_fmap, Hi).
  destruct (Forall2_lookup_l _ _ _ _ _ Hin Hei) as (s0 & Hs0 & Hget).
  cbn [root cast str_replace and_then col] in Hget.
  rewrite Hv in Hget. injection Hget as <-.
  destruct (mapM_fails (λ '(e, s), apply e s) (zip exprs inputs)
              (cast Float64 (str_replace currency_symbol "" (col c)),
               SUtf8 v) InvalidOperationError) as [e He].
  { apply list_elem_of_lookup. exists i.
    apply lookup_zip_with_Some. by eexists _, _. }
  { exact Hconv. }
  rewrite He. cbn [mbind Result_bind]. f_equal.
  destruct (mapM_Err _ _ _ He) as ([e0 s0] & Hin0 & Happ).
  apply list_elem_of_lookup in Hin0 as [j Hj].
  apply lookup_zip_with_Some in Hj as (e1 & s1 & [= <- <-] & He1 & Hs1).
  destruct (Forall2_lookup_l _ _ _ _ _ Hin He1) as (s2 & Hs2 & Hget).
  rewrite Hs1 in Hs2. injection Hs2 as <-.
  subst exprs. rewrite list_lookup_fmap in He1.
  destruct (ts !! j) as [c'|] eqn:Hc'; [|discriminate].
  injection He1 as <-.
  cbn [root cast str_replace and_then col] in Hget.
  apply list_elem_of_lookup_2, elem_of_targets in Hc' as [? ?].
  destruct (Hall c') as [v' Hv']; [done..|].
  rewrite Hv' in Hget. injection Hget as <-.
  change (convert currency_symbol (SUtf8 v') = Err e) in Happ.
  rewrite (convert_utf8 _ r) in Happ by done.
  destruct (strict_map_cases str_to_f64
              (fmap (M:=option) (regex.replace_first r "") <$> v'))
    as [[w Hw]|Hw]; rewrite Hw in Happ; [discriminate|].
  by injection Happ.
Qed.

Lemma currency_to_number_strict_witness :
  currency_to_number "£" None None amounts = Err InvalidOperationError.
Proof.
  apply (currency_to_number_strict "£" None None amounts
           {| regex.alternatives := ["£"] |} "date" [Some "2024-01"]
           "2024-01").
  - reflexivity.
  - intros c' Hc' _. simpl in Hc'.
    assert (c' = "date" ∨ c' = "amount") as [->| ->] by set_solver;
      by eexists.
  - simpl. set_solver.
  - simpl. set_solver.
  - reflexivity.
  - by apply (bool_decide_unpack _).
  - vm_compute. reflexivity.
Defined.

(** X15. A successful [currency_to_number] returns a well-formed table
    with the height of the input: every converted column is a [Float64]
    column with one value for each row. *)
Theorem currency_to_number_wf currency_symbol preserve_cols change_cols
    (df df' : DataFrame) :
  wf df →
  currency_to_number currency_symbol preserve_cols change_cols df = Ok df' →
  wf df' ∧ height df' = height df
  ∧ ∀ c s, c ∈ default (list_to_set (columns df)) change_cols →
           c ∉ default ∅ preserve_cols →
           get_column c df' = Ok s →
           dtype s = Float64 ∧ len s = height df.
Proof.
  intros Hwf Hrun.
  apply currency_to_number_Ok in Hrun as (Hcols & Hother & Hconv).
  assert (∀ n s, get_column n df' = Ok s → len s = height df) as Hlen.
  { intros n s Hs.
    destruct (decide (n ∈ targets preserve_cols change_cols df)) as [Hn|Hn].
    - destruct (Hconv n Hn) as (s0 & o & Hs0 & Ho & Ho').
      rewrite Ho' in Hs. injection Hs as <-.
      apply convert_len in Ho as [-> _]. by eapply get_column_len.
    - rewrite (Hother n Hn) in Hs. by eapply get_column_len. }
  assert (NoDup (columns df')) as Hnd by (rewrite Hcols; apply Hwf).
  assert (Forall (λ c, len c.2 = height df) df') as Hall.
  { apply Forall_forall. intros [n s] Hin. simpl.
    apply (Hlen n). by apply get_column_elem. }
  assert (height df' = height df) as Hh.
  { destruct df' as [|[n s] df'']; [|by inversion Hall].
    destruct df; [done | discriminate]. }
  split; [split; [done | by rewrite Hh]|]. split; [done|].
  intros c s Hc Hp Hs.
  destruct (Hconv c) as (s0 & o & Hs0 & Ho & Ho');
    [by apply elem_of_targets|].
  rewrite Ho' in Hs. injection Hs as <-.
  apply convert_len in Ho as [Hl Ht]. split; [done|].
  rewrite Hl. by eapply get_column_len.
Qed.

Lemma currency_to_number_wf_witness :
  wf [("date", SUtf8 [Some "2024-01"]);
      ("amount", SFloat64 [Some 100.5%float])]
  ∧ height [("date", SUtf8 [Some "2024-01"]);
            ("amount", SFloat64 [Some 100.5%float])] = height amounts.
Proof.
  destruct (currency_to_number_wf "£" (Some {["date"]}) None amounts
              [("date", SUtf8 [Some "2024-01"]);
               ("amount", SFloat64 [Some 100.5%float])])
    as (Hwf & Hh & _).
  - by apply (bool_decide_unpack _).
  - vm_compute. reflexivity.
  - split; [exact Hwf | exact Hh].
Defined.



(** ** transpose *)

(** The pivot that [transpose] computes with [auto_name], for the
    identifier column it detects. *)
Lemma transpose_auto id_col id (ids : list string) (df : DataFrame) :
  wf df → Forall (λ c, dtype c.2 = Utf8) df →
  ¬ ("Account" ∈ columns df ∧ "account" ∈ columns df) →
  detect_id_col id_col df = Some id →
  get_column id (normalise df) = Ok (SUtf8 (Some <$> ids)) →
  0 < height df → 1 < width df →
  NoDup (new_id_col id :: ids) →
  transpose id_col true true df = Ok (pivot id ids (normalise df)).
Proof.
  intros Hwf Hutf Hboth Hid Hget Hh Hw Hnd.
  destruct (normalise_wf df Hwf Hboth) as [Hwf' Hh'].
  unfold transpose. cbn [negb]. rewrite Hid.
  assert ((if bool_decide ("Account" ∈ columns df)
           then rename "Account" "account" df else Ok df)
          = Ok (normalise df)) as ->.
  { case_bool_decide as HA.
    - rewrite rename_Account by done.
      rewrite bool_decide_eq_false_2; [done|]. intros Ha. by apply Hboth.
    - by rewrite normalise_id. }
  cbn [mbind Result_bind].
  apply transpose_core; try done.
  - by apply normalise_utf8.
  - lia.
  - unfold width, normalise. by rewrite length_fmap.
Qed.

Lemma map_nth_seq_app {A} (pre l : list A) d :
  map (λ i, nth i (pre ++ l) d) (seq (length pre) (length l)) = l.
Proof.
  revert pre. induction l as [|x l IH]; intros pre; simpl; [done|].
  rewrite app_nth2, Nat.sub_diag by lia. simpl. f_equal.
  specialize (IH (pre ++ [x])).
  by rewrite length_app, Nat.add_1_r, <- app_assoc in IH.
Qed.

Lemma map_nth_seq {A} (l : list A) d :
  map (λ i, nth i l d) (seq 0 (length l)) = l.
Proof. apply (map_nth_seq_app [] l d). Qed.

(** Transposing a matrix twice gives the matrix. *)
Lemma rows_rows {A} h (cols : list (list (option A))) :
  Forall (λ c, length c = h) cols →
  rows (length cols) (rows h cols) = cols.
Proof.
  intros Hlen.
  transitivity (map (λ j, nth j cols []) (seq 0 (length cols)));
    [|apply map_nth_seq].
  unfold rows at 1.
  apply map_ext_in. intros j Hj. apply in_seq in Hj as [_ Hj]. simpl in Hj.
  assert (length (nth j cols []) = h) as Hc.
  { rewrite Forall_forall in Hlen. apply Hlen, list_elem_of_In, nth_In.
    lia. }
  transitivity (map (λ i, nth i (nth j cols []) None) (seq 0 h));
    [|rewrite <- Hc; apply map_nth_seq].
  unfold row, rows. rewrite map_map.
  apply map_ext. intros i.
  transitivity (nth j (map (λ c : list (option A), nth i c None) cols)
                  ((λ c : list (option A), nth i c None) []));
    [f_equal; by destruct i
    |apply (map_nth (λ c : list (option A), nth i c None) cols [] j)].
Qed.

Lemma filter_absent name (df : DataFrame) :
  name ∉ columns df →
  List.filter (λ c, negb (String.eqb c.1 name)) df = df.
Proof.
  unfold columns. induction df as [|[n s] df IH]; simpl; [done|].
  intros [Hne Hnin]%not_elem_of_cons.
  destruct (String.eqb_spec n name) as [->|_]; [done|].
  simpl. by rewrite IH.
Qed.

Lemma utf8_cells_zip (names : list string) (cells : list (list (option string))) :
  length names = length cells →
  utf8_cells (zip names (SUtf8 <$> cells)) = cells.
Proof.
  unfold utf8_cells. intros Hlen. rewrite snd_zip by (rewrite length_fmap; lia).
  clear Hlen. induction cells as [|c cells IH]; [done|].
  change (omap utf8_values (SUtf8 <$> c :: cells))
    with (c :: omap utf8_values (SUtf8 <$> cells)).
  by rewrite IH.
Qed.

Lemma zip_utf8_cells (df : DataFrame) :
  Forall (λ c, dtype c.2 = Utf8) df →
  zip (columns df) (SUtf8 <$> utf8_cells df) = df.
Proof.
  unfold utf8_cells, columns.
  induction 1 as [|[n s] df Hs _ IH]; [done|].
  destruct s as [v| | |]; try discriminate.
  change (zip (((n, SUtf8 v) :: df).*1)
            (SUtf8 <$> omap utf8_values ((n, SUtf8 v) :: df).*2))
    with ((n, SUtf8 v) :: zip df.*1 (SUtf8 <$> omap utf8_values df.*2)).
  by rewrite IH.
Qed.

Lemma utf8_cells_length (df : DataFrame) h :
  Forall (λ c, dtype c.2 = Utf8) df →
  Forall (λ c, len c.2 = h) df →
  length (utf8_cells df) = length df
  ∧ Forall (λ c, length c = h) (utf8_cells df).
Proof.
  unfold utf8_cells.
  induction 1 as [|[n s] df Hs _ IH]; [by split|].
  intros Hlen. inversion Hlen as [|?? Hl Hrest]; subst.
  destruct s as [v| | |]; try discriminate.
  change (omap utf8_values ((n, SUtf8 v) :: df).*2)
    with (v :: omap utf8_values df.*2).
  destruct (IH Hrest) as [IH1 IH2].
  split; [simpl; by f_equal | by constructor].
Qed.

(** X17. Transposing twice gives the table back: on a report whose first
    column is [account], with non-null, distinct identifier values none
    of which is [date], [account] or [Account], with at least one row and
    one further column, all of strings and none named [Account],
    [transpose] applied to the result of [transpose] returns the
    report. *)
Theorem transpose_twice (ids : list string) (rest : DataFrame) :
  let df := ("account", SUtf8 (Some <$> ids)) :: rest in
  wf df → Forall (λ c, dtype c.2 = Utf8) rest →
  ids ≠ [] → rest ≠ [] →
  "Account" ∉ columns rest →
  NoDup ("date" :: ids) → "account" ∉ ids → "Account" ∉ ids →
  (transpose None true true df ≫= transpose None true true) = Ok df.
Proof.
  intros df Hwf Hutf Hids Hrest HA Hnd Ha HA'.
  assert (height df = length ids) as Hh by (simpl; by rewrite length_fmap).
  assert (NoDup ("account" :: columns rest)) as Hnames by apply Hwf.
  assert ("account" ∉ columns rest) as Hacc.
  { pose proof Hnames as [H _]%NoDup_cons. exact H. }
  assert (Forall (λ c, len c.2 = length ids) rest) as Hlen.
  { destruct Hwf as [_ Hall]. rewrite Hh in Hall. by inversion Hall. }
  destruct (utf8_cells_length rest _ Hutf Hlen) as [Hcl Hcells].
  (* the first transposition *)
  assert (transpose None true true df = Ok (pivot "account" ids df)) as ->.
  { assert ("Account" ∉ columns df) as HdA
      by (intros [?|?]%elem_of_cons; done).
    rewrite <- (normalise_id df) at 2 by done.
    apply transpose_auto.
    - done.
    - constructor; [done | exact Hutf].
    - by intros [? _].
    - reflexivity.
    - rewrite normalise_id by done. simpl. reflexivity.
    - rewrite Hh. destruct ids; [done | simpl; lia].
    - destruct rest; [done | simpl; lia].
    - exact Hnd. }
  cbn [mbind Result_bind].
  assert (pivot "account" ids df
          = ("date", SUtf8 (Some <$> columns rest))
              :: zip ids (SUtf8 <$> rows (length ids) (utf8_cells rest)))
    as Hp.
  { unfold pivot. subst df. cbn [List.filter fst String.eqb Ascii.eqb
      Bool.eqb negb new_id_col]. simpl List.filter.
    rewrite filter_absent by done. by rewrite Hh. }
  rewrite Hp.
  set (body := zip ids (SUtf8 <$> rows (length ids) (utf8_cells rest))).
  assert (length (rows (length ids) (utf8_cells rest)) = length ids) as Hrl.
  { unfold rows. by rewrite length_map, length_seq. }
  assert (columns body = ids) as Hbody.
  { unfold columns, body. apply fst_zip. rewrite length_fmap. lia. }
  assert (Forall (λ c, dtype c.2 = Utf8
                       ∧ len c.2 = length (columns rest)) body) as Hb.
  { apply Forall_forall. intros [n s] Hin.
    apply list_elem_of_lookup in Hin as [i Hi].
    apply lookup_zip_with_Some in Hi as (n' & s' & [= <- <-] & _ & Hs).
    rewrite list_lookup_fmap in Hs.
    destruct (rows _ _ !! i) as [r|] eqn:Hr; [|discriminate].
    injection Hs as <-. split; [done|]. simpl.
    unfold rows in Hr. rewrite list_lookup_fmap in Hr.
    destruct (seq _ _ !! i); [|discriminate]. injection Hr as <-.
    unfold row, columns. by rewrite length_map, length_fmap. }
  set (P := ("date", SUtf8 (Some <$> columns rest)) :: body).
  assert (("Account" ∉ columns P) ∧ ("account" ∉ columns P)) as [HPA HPa].
  { unfold P. simpl. rewrite Hbody. split; intros [?|?]%elem_of_cons; done. }
  assert (transpose None true true P = Ok (pivot "date" (columns rest) P))
    as ->.
  { rewrite <- (normalise_id P) at 2 by done.
    apply transpose_auto.
    - split; [unfold P; simpl; by rewrite Hbody|].
      constructor; [done|]. simpl. rewrite length_fmap.
      eapply Forall_impl; [exact Hb|]. by intros ? [_ ?].
    - constructor; [done|]. eapply Forall_impl; [exact Hb|]. by intros ? [? _].
    - by intros [? _].
    - unfold detect_id_col.
      rewrite (bool_decide_eq_false_2 _ HPa), (bool_decide_eq_false_2 _ HPA).
      done.
    - by rewrite normalise_id.
    - simpl. rewrite length_fmap. unfold columns. rewrite length_fmap.
      destruct rest; [done | simpl; lia].
    - unfold P, body, width. simpl. rewrite length_zip_with, length_fmap, Hrl.
      destruct ids; [done | simpl; lia].
    - done. }
  f_equal. unfold pivot, P. simpl List.filter.
  assert ("date" ∉ ids) as Hdate.
  { pose proof Hnd as [H _]%NoDup_cons. exact H. }
  rewrite filter_absent by (by rewrite Hbody).
  rewrite Hbody. cbn [new_id_col String.eqb Ascii.eqb Bool.eqb].
  unfold df. f_equal. unfold body.
  rewrite utf8_cells_zip by lia.
  cbn [height len]. rewrite length_fmap.
  replace (length (columns rest)) with (length (utf8_cells rest))
    by (unfold columns; by rewrite length_fmap).
  rewrite rows_rows by done. by apply zip_utf8_cells.
Qed.

Lemma transpose_twice_witness :
  (transpose None true true balance ≫= transpose None true true)
  = Ok balance.
Proof.
  apply (transpose_twice ["expenses:food"]
           [("2024-01", SUtf8 [Some "£100"]); ("2024-02", SUtf8 [Some "£150"])]).
  - by apply (bool_decide_unpack _).
  - by repeat constructor.
  - discriminate.
  - discriminate.
  - by apply (bool_decide_unpack _).
  - by apply (bool_decide_unpack _).
  - by apply (bool_decide_unpack _).
  - by apply (bool_decide_unpack _).
Defined.

(** X18. With [auto_name], an identifier column given by a name that the
    table does not have once [Account] is renamed to [account] makes
    [transpose] raise the error of a missing column, whatever
    [include_header] is (on a table that does not have both spellings of
    the account column). *)
Theorem transpose_unknown_id id include_header (df : DataFrame) :
  ¬ ("Account" ∈ columns df ∧ "account" ∈ columns df) →
  id ∉ columns (normalise df) →
  transpose (Some id) include_header true df
  = Err (ColumnNotFoundError id).
Proof.
  intros Hboth Hnin. unfold transpose, detect_id_col. cbn [negb].
  assert ((if bool_decide ("Account" ∈ columns df)
           then rename "Account" "account" df else Ok df)
          = Ok (normalise df)) as ->.
  { case_bool_decide as HA.
    - rewrite rename_Account by done.
      rewrite bool_decide_eq_false_2; [done|]. intros Ha. by apply Hboth.
    - by rewrite normalise_id. }
  cbn [mbind Result_bind]. by rewrite get_column_not_found.
Qed.

Lemma transpose_unknown_id_witness :
  transpose (Some "payee") false true balance
  = Err (ColumnNotFoundError "payee").
Proof.
  apply transpose_unknown_id.
  - intros [H _]. revert H. by apply (bool_decide_eq_false_1 _).
  - by apply (bool_decide_eq_false_1 _).
Defined.

(** X19. With [auto_name] and [include_header=False] the call cannot
    succeed: on a well-formed table of string columns with an identifier
    column of non-null values, at least one row and one further column,
    [transpose] raises a shape error, because one more column name is
    assigned than the transposed table has columns. *)
Theorem transpose_without_header id_col id (ids : list string)
    (df : DataFrame) :
  wf df → Forall (λ c, dtype c.2 = Utf8) df →
  ¬ ("Account" ∈ columns df ∧ "account" ∈ columns df) →
  detect_id_col id_col df = Some id →
  get_column id (normalise df) = Ok (SUtf8 (Some <$> ids)) →
  0 < height df → 1 < width df →
  transpose id_col false true df = Err ShapeError.
Proof.
  intros Hwf Hutf Hboth Hid Hget Hh Hw.
  destruct (normalise_wf df Hwf Hboth) as [Hwf' Hh'].
  pose proof (normalise_utf8 df Hutf) as Hutf'.
  unfold transpose. cbn [negb]. rewrite Hid.
  assert ((if bool_decide ("Account" ∈ columns df)
           then rename "Account" "account" df else Ok df)
          = Ok (normalise df)) as ->.
  { case_bool_decide as HA.
    - rewrite rename_Account by done.
      rewrite bool_decide_eq_false_2; [done|]. intros Ha. by apply Hboth.
    - by rewrite normalise_id. }
  cbn [mbind Result_bind].
  assert (1 < width (normalise df)) as Hw'
    by (unfold width, normalise; by rewrite length_fmap).
  set (df0 := normalise df) in *.
  pose proof (get_column_len _ _ _ Hwf' Hget) as Hlen. simpl in Hlen.
  rewrite length_fmap in Hlen.
  rewrite Hget. cbn [mbind Result_bind].
  unfold drop. rewrite bool_decide_eq_true_2
    by (apply get_column_columns; eauto).
  cbn [mbind Result_bind].
  destruct (rest_height df0 id Hwf' Hw') as [Hne Hrest].
  set (rest := List.filter (λ c, negb (String.eqb c.1 id)) df0) in *.
  assert (Forall (λ c, dtype c.2 = Utf8) rest) as Hutf''.
  { rewrite Forall_forall in Hutf' |- *. intros c Hc. apply Hutf'.
    apply list_elem_of_In, filter_In in Hc as [Hc _].
    by apply list_elem_of_In. }
  unfold pl.transpose.
  replace (Nat.eqb (height rest) 0) with false
    by (symmetry; apply Nat.eqb_neq; lia).
  replace (Nat.eqb (width rest) 0) with false
    by (symmetry; apply Nat.eqb_neq; destruct rest; simpl; [done | lia]).
  cbn [orb]. rewrite (mapM_utf8_values rest Hutf'').
  cbn [mbind Result_bind]. unfold set_columns.
  cbn [mapM mbind option_bind as_str].
  rewrite mapM_as_str. cbn [mbind option_bind mret option_ret].
  unfold transposed, width. cbn [length].
  rewrite length_imap. unfold rows at 1. rewrite length_map, length_seq.
  replace (Nat.eqb (S (length ids)) (height rest)) with false
    by (symmetry; apply Nat.eqb_neq; lia).
  reflexivity.
Qed.

Lemma transpose_without_header_witness :
  transpose None false true balance = Err ShapeError.
Proof.
  apply (transpose_without_header None "account" ["expenses:food"] balance).
  - by apply (bool_decide_unpack _).
  - by repeat constructor.
  - intros [H _]. revert H. by apply (bool_decide_eq_false_1 _).
  - reflexivity.
  - reflexivity.
  - simpl. lia.
  - simpl. lia.
Defined.


End HLDataFrameProps.
